(** * g4g_scraper: the Section Locator, the Article Formatter and their caller

    A shallow embedding of [src/g4g_scraper.py].  The parsed document that
    BeautifulSoup hands to the program is a tree of tags and text nodes; the
    two extraction functions are pure walks over that tree, and the
    orchestrator threads the network through its calls to [fetch_page]. *)

From Stdlib Require Import List String Ascii Bool Arith Lia.
Import ListNotations.
Open Scope string_scope.
Open Scope list_scope.

Set Warnings "-register-all".

(** ** Python strings

    A Python [str] is modelled as a Rocq [string]; every character is taken in
    the range of code points below 256. *)
Module PyStr.

(** [str.isspace] on one character, for code points below 256. *)
Definition is_space (c : ascii) : bool :=
  let n := nat_of_ascii c in
  (((9 <=? n) && (n <=? 13)) || ((28 <=? n) && (n <=? 32))
   || (n =? 133) || (n =? 160))%nat.

Definition is_empty (s : string) : bool :=
  match s with EmptyString => true | String _ _ => false end.

(** The truth value of a string: [if s:] holds for a non-empty one. *)
Definition truthy (s : string) : bool := negb (is_empty s).

Fixpoint lstrip (s : string) : string :=
  match s with
  | EmptyString => EmptyString
  | String c s' => if is_space c then lstrip s' else s
  end.

Fixpoint rstrip (s : string) : string :=
  match s with
  | EmptyString => EmptyString
  | String c s' =>
      let r := rstrip s' in
      if is_space c && is_empty r then EmptyString else String c r
  end.

(** [s.strip()] *)
Definition strip (s : string) : string := rstrip (lstrip s).

(** [''.join(l)] *)
Definition concat (l : list string) : string :=
  fold_right String.append EmptyString l.

(** [sep.join(l)] *)
Fixpoint join (sep : string) (l : list string) : string :=
  match l with
  | [] => EmptyString
  | [x] => x
  | x :: rest => x ++ sep ++ join sep rest
  end.

(** [c * n] for a one-character string. *)
Fixpoint repeat_char (c : ascii) (n : nat) : string :=
  match n with
  | O => EmptyString
  | S k => String c (repeat_char c k)
  end.

(** [pat in s] *)
Fixpoint contains (pat s : string) : bool :=
  String.prefix pat s ||
  match s with
  | EmptyString => false
  | String _ s' => contains pat s'
  end.

(** [s.replace(pat, '')] for a non-empty [pat]: occurrences are removed from
    left to right and do not overlap; [skip] counts the characters of the
    occurrence being removed that are still ahead. *)
Fixpoint remove_from (pat : string) (skip : nat) (s : string) : string :=
  match s with
  | EmptyString => EmptyString
  | String c s' =>
      match skip with
      | S k => remove_from pat k s'
      | O =>
          if String.prefix pat s
          then remove_from pat (String.length pat - 1) s'
          else String c (remove_from pat 0 s')
      end
  end.

Definition remove_all (pat s : string) : string := remove_from pat 0 s.

(** [s.split(sep)] for a one-character separator. *)
Fixpoint split (sep : ascii) (s : string) : list string :=
  match s with
  | EmptyString => [EmptyString]
  | String c s' =>
      if Ascii.eqb c sep then EmptyString :: split sep s'
      else match split sep s' with
           | h :: t => String c h :: t
           | [] => [String c EmptyString]
           end
  end.

(** [s.endswith(c)] for a one-character suffix. *)
Fixpoint endswith (c : ascii) (s : string) : bool :=
  match s with
  | EmptyString => false
  | String a EmptyString => Ascii.eqb a c
  | String _ s' => endswith c s'
  end.

Definition mem (x : string) (l : list string) : bool :=
  existsb (String.eqb x) l.

End PyStr.

(** ** The parsed document *)

(** The attributes the program reads: the class list (a multi-valued
    attribute, absent when the tag has none) and the link target. *)
Record attrs : Type := mkAttrs {
  a_class : option (list string);
  a_href : option string
}.

Definition no_attrs : attrs := mkAttrs None None.

Inductive node : Type :=
| NavigableString (s : string)
| Tag (name : string) (at_ : attrs) (contents : list node).

Definition node_name (n : node) : option string :=
  match n with
  | NavigableString _ => None
  | Tag nm _ _ => Some nm
  end.

Definition node_attrs (n : node) : attrs :=
  match n with
  | NavigableString _ => no_attrs
  | Tag _ a _ => a
  end.

Definition node_contents (n : node) : list node :=
  match n with
  | NavigableString _ => []
  | Tag _ _ ks => ks
  end.

(** [element.get('class', [])] *)
Definition get_class (n : node) : list string :=
  match a_class (node_attrs n) with
  | Some cs => cs
  | None => []
  end.

(** Everything below a node, in document order (the order of [.descendants]). *)
Fixpoint descendants (n : node) : list node :=
  match n with
  | NavigableString _ => []
  | Tag _ _ ks => flat_map (fun k => k :: descendants k) ks
  end.

(** The document-order stream of a list of sibling subtrees. *)
Definition preorder (ks : list node) : list node :=
  flat_map (fun k => k :: descendants k) ks.

Definition has_name (names : list string) (n : node) : bool :=
  match node_name n with
  | Some nm => PyStr.mem nm names
  | None => false
  end.

(** [n.find_all(names)] *)
Definition find_all (names : list string) (n : node) : list node :=
  filter (has_name names) (descendants n).

(** [n.find(name)] *)
Definition find (names : list string) (n : node) : option node :=
  hd_error (find_all names n).

(** The text nodes below a node, in document order. *)
Definition all_strings (n : node) : list string :=
  flat_map (fun d => match d with
                     | NavigableString s => [s]
                     | Tag _ _ _ => []
                     end) (descendants n).

(** [n.get_text()] *)
Definition get_text (n : node) : string := PyStr.concat (all_strings n).

(** [n.get_text(strip=True)]: every text node is stripped and the empty ones
    are dropped before joining. *)
Definition get_text_strip (n : node) : string :=
  PyStr.concat
    (filter PyStr.truthy (map PyStr.strip (all_strings n))).

(** [soup.find('div', {'class': names})]: the first [div] one of whose
    classes is among [names]. *)
Definition has_class_in (names : list string) (n : node) : bool :=
  existsb (fun c => PyStr.mem c names) (get_class n).

Definition find_div_class (names : list string) (n : node) : option node :=
  hd_error (filter (has_class_in names) (find_all ["div"] n)).

(** ** Article Formatter *)

Module Formatter.

(** What [markdown_content.append] receives, before it is formatted:
    [render] below is the f-string of each append. *)
Inductive fragment : Type :=
| FHeading (level : nat) (text : string)
| FPara (text : string)
| FFence (language : option string) (chunks : list string)
| FListOpen
| FBullet (text : string).

Definition nl : string := String (ascii_of_nat 10) EmptyString.

Definition render (f : fragment) : string :=
  match f with
  | FHeading level text =>
      nl ++ PyStr.repeat_char "#" level ++ " " ++ text ++ nl
  | FPara text => nl ++ text ++ nl
  | FFence language chunks =>
      nl ++ "```" ++ match language with
                     | Some l => l
                     | None => EmptyString
                     end
         ++ nl ++ PyStr.concat chunks ++ nl ++ "```" ++ nl
  | FListOpen => nl
  | FBullet text => "- " ++ text ++ nl
  end.

Record state : Type := mkState {
  in_code_block : bool;
  current_code_block : list string;
  current_language : option string;
  markdown_content : list fragment
}.

Definition initial : state := mkState false [] None [].

Definition emit (f : fragment) (st : state) : state :=
  mkState (in_code_block st) (current_code_block st) (current_language st)
          (markdown_content st ++ [f]).

Definition nonempty {A} (l : list A) : bool :=
  match l with [] => false | _ :: _ => true end.

(** [if in_code_block and current_code_block: ... append the fence, clear
    the buffer, close the block]. *)
Definition flush (st : state) : state :=
  if in_code_block st && nonempty (current_code_block st)
  then mkState false [] (current_language st)
         (markdown_content st
            ++ [FFence (current_language st) (current_code_block st)])
  else st.

(** [int(element.name[1])] on the heading names the loop dispatches. *)
Definition heading_digit (nm : string) : nat :=
  if String.eqb nm "h2" then 2
  else if String.eqb nm "h3" then 3
  else 4.

Definition is_heading (e : node) : bool := has_name ["h2"; "h3"; "h4"] e.
Definition is_para (e : node) : bool := has_name ["p"] e.
Definition is_list (e : node) : bool := has_name ["ul"; "ol"] e.

Definition is_code (e : node) : bool :=
  has_name ["pre"; "code"] e
  || (has_name ["div"] e && PyStr.mem "code" (get_class e)).

(** The language read off the element's classes: the first class that
    contains ["language-"], with that marker removed. *)
Definition detect_language (e : node) : option string :=
  match a_class (node_attrs e) with
  | None => None
  | Some classes =>
      match filter (PyStr.contains "language-") classes with
      | [] => None
      | c :: _ => Some (PyStr.remove_all "language-" c)
      end
  end.

Definition open_block (language : option string) (st : state) : state :=
  if in_code_block st then st
  else mkState true (current_code_block st) language (markdown_content st).

Definition push_code (code_text : string) (st : state) : state :=
  if PyStr.truthy (PyStr.strip code_text)
  then mkState (in_code_block st) (current_code_block st ++ [code_text])
         (current_language st) (markdown_content st)
  else st.

Definition bullets (e : node) : list fragment :=
  map (fun li => FBullet (get_text_strip li)) (find_all ["li"] e).

Definition emit_all (fs : list fragment) (st : state) : state :=
  mkState (in_code_block st) (current_code_block st) (current_language st)
          (markdown_content st ++ fs).

(** One iteration of [for element in elements]. *)
Definition step (st : state) (element : node) : state :=
  if is_heading element then
    let level := heading_digit (match node_name element with
                                | Some nm => nm
                                | None => EmptyString
                                end) + 1 in
    emit (FHeading level (get_text_strip element)) (flush st)
  else if is_para element then
    let st' := flush st in
    let text := get_text_strip element in
    if PyStr.truthy text then emit (FPara text) st' else st'
  else if is_code element then
    push_code (get_text element)
      (open_block (detect_language element) st)
  else if is_list element then
    emit_all (FListOpen :: bullets element) (flush st)
  else st.

Definition run (st : state) (elements : list node) : state :=
  fold_left step elements st.

Definition content_tags : list string :=
  ["p"; "h2"; "h3"; "h4"; "pre"; "code"; "ul"; "ol"; "div"].

(** The fragments of an article whose main container is [main_content]. *)
Definition format_elements (elements : list node) : list fragment :=
  markdown_content (flush (run initial elements)).

Definition format_main (main_content : node) : list fragment :=
  format_elements (find_all content_tags main_content).

End Formatter.

(** ** Elements with their place in the document

    [find_next] and [.parent] depend on where a tag sits in the whole
    document, so the Locator and its caller see a tag together with the nodes
    that follow its closing tag in document order.  Two different places of
    one document differ in that stream, so equality of [element]s is identity
    of tags. *)

Record element : Type := mkElement {
  el_node : node;
  el_after : list node
}.

(** [e.next_elements]: the tag's own contents, then everything after it. *)
Definition next_elements (e : element) : list node :=
  descendants (el_node e) ++ el_after e.

(** [e.find_next(names)] *)
Definition find_next (names : list string) (e : element) : option node :=
  hd_error (filter (has_name names) (next_elements e)).

(** The children [l] of the tag [par] and all that lies below them, in
    document order, each paired with its [.parent]; [after] follows the
    closing tag of [par], and [rec] lists what lies below one child. *)
Section Children.

Variable rec : node -> list node -> list (element * element).
Variable par : element.
Variable after : list node.

Fixpoint children_below (l : list node) : list (element * element) :=
  match l with
  | [] => []
  | k :: rest =>
      let after_k := preorder rest ++ after in
      (mkElement k after_k, par) :: rec k after_k ++ children_below rest
  end.

End Children.

(** Everything below the tag [n] (whose closing tag is followed by [after]),
    in document order, each paired with its [.parent]. *)
Fixpoint below (n : node) (after : list node) {struct n}
  : list (element * element) :=
  match n with
  | NavigableString _ => []
  | Tag _ _ ks => children_below below (mkElement n after) after ks
  end.

(** [e.find_all(names)], each hit with its parent. *)
Definition find_all_el (names : list string) (e : element)
  : list (element * element) :=
  filter (fun p => has_name names (el_node (fst p)))
         (below (el_node e) (el_after e)).

(** [e.find('div', class_=class_name)] *)
Definition find_div_class_el (class_name : string) (e : element)
  : option element :=
  hd_error
    (filter (fun d => PyStr.mem class_name (get_class (el_node d)))
            (map fst (find_all_el ["div"] e))).

(** The first result of a loop body that returns from inside the loop. *)
Fixpoint first_some {A B : Type} (f : A -> option B) (l : list A)
  : option B :=
  match l with
  | [] => None
  | x :: rest =>
      match f x with
      | Some y => Some y
      | None => first_some f rest
      end
  end.

(** ** Section Locator *)

Module Locator.

Inductive pattern : Type :=
| Headers (headers : list string) (min_links : nat)
| Lists (lists : string) (min_links : nat)
| Container (container : list string).

Definition patterns : list pattern :=
  [ Headers ["h2"; "h3"] 3;
    Lists "ul" 5;
    Container ["post-content"; "entry-content"; "article-content"] ].

(** [len(ul.find_all('a'))] *)
Definition link_count (n : node) : nat := List.length (find_all ["a"] n).

(** The body of [for header in headers]. *)
Definition try_header (min_links : nat) (hp : element * element)
  : option element :=
  match find_next ["ul"] (fst hp) with
  | Some next_ul =>
      if (min_links <=? link_count next_ul)%nat then Some (snd hp) else None
  | None => None
  end.

Definition try_list (min_links : nat) (up : element * element)
  : option element :=
  if (min_links <=? link_count (el_node (fst up)))%nat then Some (snd up) else None.

Definition try_container (soup : element) (class_name : string)
  : option element :=
  match find_div_class_el class_name soup with
  | Some container =>
      match find_all ["a"] (el_node container) with
      | _ :: _ => Some container
      | [] => None
      end
  | None => None
  end.

(** The body of [for pattern in patterns]. *)
Definition try_pattern (soup : element) (p : pattern) : option element :=
  match p with
  | Headers headers min_links =>
      first_some
        (fun header_tag =>
           first_some (try_header min_links) (find_all_el [header_tag] soup))
        headers
  | Lists _ min_links =>
      first_some (try_list min_links) (find_all_el ["ul"] soup)
  | Container container =>
      first_some (try_container soup) container
  end.

Definition find_topic_section (soup : element) : option element :=
  first_some (try_pattern soup) patterns.

End Locator.

(** ** The scraper: article extraction and the orchestrator

    [parse] is [BeautifulSoup(html, 'html.parser')], [fetch_page] what the
    method of that name returns ([None] is a failed request) and [urljoin] the
    standard library's; the delays and the progress messages are left out.
    This is the run in which no collaborator raises an exception that
    [fetch_page] does not catch; those runs are embedded in [Raising]
    below. *)

Record article : Type := mkArticle {
  title : string;
  content : string
}.

Definition base_url : string := "https://www.geeksforgeeks.org".

Section Scraper.

Variable parse : string -> node.
Variable World : Type.
Variable fetch_page : string -> World -> option string * World.
Variable urljoin : string -> string -> string.

(** [soup.find('article') or soup.find('div', {'class': [...]})] *)
Definition main_container (soup : node) : option node :=
  match find ["article"] soup with
  | Some a => Some a
  | None =>
      find_div_class ["post-content"; "entry-content"; "article-content"] soup
  end.

Definition extract_article_content (html : string) : option article :=
  if negb (PyStr.truthy html) then None
  else
    let soup := parse html in
    let title :=
      match find ["h1"] soup with
      | Some h1 => get_text_strip h1
      | None => EmptyString
      end in
    let markdown_content :=
      match main_container soup with
      | Some main_content => Formatter.format_main main_content
      | None => []
      end in
    Some (mkArticle title
            (PyStr.join Formatter.nl (map Formatter.render markdown_content))).

(** The body of [for li in ul.find_all('li')], over the items that remain. *)
Fixpoint scrape_items (lis : list node) (w : World)
  (markdown_content : list string) : list string * World :=
  match lis with
  | [] => (markdown_content, w)
  | li :: rest =>
      match find ["a"] li with
      | Some link =>
          match a_href (node_attrs link) with
          | Some href =>
              if PyStr.truthy href then
                let article_url := urljoin base_url href in
                let text := get_text_strip link in
                let md1 :=
                  markdown_content
                    ++ [(Formatter.nl ++ "### " ++ text ++ Formatter.nl)%string] in
                let (page_html, w1) := fetch_page article_url w in
                let md2 :=
                  match page_html with
                  | Some h =>
                      if PyStr.truthy h then
                        match extract_article_content h with
                        | Some article_content =>
                            md1 ++ [content article_content]
                        | None => md1
                        end
                      else md1
                  | None => md1
                  end in
                scrape_items rest w1
                  (md2 ++ [(Formatter.nl ++ "---" ++ Formatter.nl)%string])
              else scrape_items rest w markdown_content
          | None => scrape_items rest w markdown_content
          end
      | None => scrape_items rest w markdown_content
      end
  end.

(** The body of [for header in topic_section.find_all(['h2', 'h3'])]. *)
Fixpoint scrape_sections (headers : list element) (w : World)
  (markdown_content : list string) : list string * World :=
  match headers with
  | [] => (markdown_content, w)
  | header :: rest =>
      let section_title := get_text_strip (el_node header) in
      if negb (PyStr.truthy section_title)
         || (String.length section_title <? 2)%nat
      then scrape_sections rest w markdown_content
      else
        let md1 :=
          markdown_content
            ++ [(Formatter.nl ++ "## " ++ section_title ++ Formatter.nl)%string] in
        match find_next ["ul"] header with
        | Some ul =>
            let (md2, w2) := scrape_items (find_all ["li"] ul) w md1 in
            scrape_sections rest w2 md2
        | None => scrape_sections rest w md1
        end
  end.

Definition page_title (soup : node) : string :=
  match find ["h1"] soup with
  | Some h1 => get_text_strip h1
  | None => "GeeksForGeeks Guide"
  end.

Definition scrape_from_url (url : string) (w : World)
  : option (list string) * World :=
  let (fetched, w1) := fetch_page url w in
  match fetched with
  | None => (None, w1)
  | Some html_content =>
      if negb (PyStr.truthy html_content) then (None, w1)
      else
        let soup := mkElement (parse html_content) [] in
        let main_title := page_title (el_node soup) in
        match Locator.find_topic_section soup with
        | None => (None, w1)
        | Some topic_section =>
            let (md, w2) :=
              scrape_sections
                (map fst (find_all_el ["h2"; "h3"] topic_section)) w1
                [("# " ++ main_title ++ Formatter.nl)%string] in
            (Some md, w2)
        end
  end.

End Scraper.

(** ** Output file naming *)

(** [l[-k]] for [k >= 1]; [None] is the [IndexError]. *)
Definition index_from_end (k : nat) (l : list string) : option string :=
  nth_error (rev l) (k - 1).

(** The two lines of [main] that derive the file name from the URL. *)
Definition output_filename (url : string) : option string :=
  let filename :=
    if PyStr.endswith "/" url
    then index_from_end 2 (PyStr.split "/" url)
    else index_from_end 1 (PyStr.split "/" url) in
  option_map (fun f => (f ++ ".md")%string) filename.

Definition urls : list string :=
  [ "https://www.geeksforgeeks.org/greedy-algorithms/";
    "https://www.geeksforgeeks.org/dynamic-programming/";
    "https://www.geeksforgeeks.org/graph-data-structure-and-algorithms/";
    "https://www.geeksforgeeks.org/pattern-searching/";
    "https://www.geeksforgeeks.org/branch-and-bound-algorithm/";
    "https://www.geeksforgeeks.org/geometric-algorithms/";
    "https://www.geeksforgeeks.org/randomized-algorithms/" ].

(** ** Saving and the main loop

    The files written so far are kept as a list of paths with their text,
    the latest write first; [open(filepath, 'w')] replaces what a path held,
    so a path reads as its latest entry.  Directories are not modelled:
    [os.makedirs(..., exist_ok=True)] leaves the files as they are.  Neither
    are the errors of the file system: this is the run in which every write
    succeeds. *)

Definition files : Type := list (string * string).

Definition write_file (filepath text : string) (fs : files) : files :=
  (filepath, text) :: fs.

Fixpoint read_file (filepath : string) (fs : files) : option string :=
  match fs with
  | [] => None
  | (p, text) :: rest =>
      if String.eqb p filepath then Some text else read_file filepath rest
  end.

(** [os.path.join(a, b)] on a POSIX system. *)
Definition path_join (a b : string) : string :=
  if String.prefix "/" b then b
  else if negb (PyStr.truthy a) || PyStr.endswith "/" a then (a ++ b)%string
  else (a ++ "/" ++ b)%string.

Definition save_content (content : list string) (filename : string)
  (fs : files) : files :=
  write_file (path_join "scraped_content" filename)
    (PyStr.join Formatter.nl content) fs.

Section Main.

Variable parse : string -> node.
Variable World : Type.
Variable fetch_page : string -> World -> option string * World.
Variable urljoin : string -> string -> string.

(** The body of [for url in urls], over the URLs that remain; an index out
    of range would end the run. *)
Fixpoint main_loop (us : list string) (w : World) (fs : files)
  : World * files :=
  match us with
  | [] => (w, fs)
  | url :: rest =>
      match output_filename url with
      | None => (w, fs)
      | Some filename =>
          let (content, w1) :=
            scrape_from_url parse World fetch_page urljoin url w in
          match content with
          | Some ((_ :: _) as md) =>
              main_loop rest w1 (save_content md filename fs)
          | Some [] => main_loop rest w1 fs
          | None => main_loop rest w1 fs
          end
      end
  end.

Definition main (w : World) (fs : files) : World * files :=
  main_loop urls w fs.

End Main.

(** ** The scraper with the exceptions of its collaborators

    [fetch_page] wraps [session.get] and [raise_for_status] in a [try] that
    catches [requests.RequestException] and nothing else, and [urljoin] can
    raise [ValueError].  Here the orchestrator is embedded once more with
    these exceptions: [session_get] tells how the request ended, and a result
    is either returned or lost to an exception that nothing catches.  The
    embedding above is this one on a network that raises nothing but
    [requests.RequestException] (see [Raising.scrape_items_agrees]). *)

(** How [self.session.get(url, timeout=10)] ends. *)
Inductive attempt : Type :=
| Responded (ok : bool) (text : string)
| RequestFailed
| OtherError.

(** A call that returns, or an exception that leaves it. *)
Inductive outcome (A : Type) : Type :=
| Returned (a : A)
| Raised.

Arguments Returned {A} a.
Arguments Raised {A}.

Module Raising.

Section Scraper.

Variable parse : string -> node.
Variable World : Type.
Variable session_get : string -> World -> attempt * World.
Variable urljoin : string -> string -> outcome string.

(** [Responded ok text]: a response arrived, [ok] tells whether
    [raise_for_status] passes (it raises [requests.HTTPError], a
    [RequestException], otherwise).  [RequestFailed]: the call raised a
    [requests.RequestException].  [OtherError]: it raised anything else. *)
Definition fetch_page (url : string) (w : World)
  : outcome (option string) * World :=
  let (a, w1) := session_get url w in
  match a with
  | Responded true text => (Returned (Some text), w1)
  | Responded false _ => (Returned None, w1)
  | RequestFailed => (Returned None, w1)
  | OtherError => (Raised, w1)
  end.

Fixpoint scrape_items (lis : list node) (w : World)
  (markdown_content : list string) : outcome (list string) * World :=
  match lis with
  | [] => (Returned markdown_content, w)
  | li :: rest =>
      match find ["a"] li with
      | Some link =>
          match a_href (node_attrs link) with
          | Some href =>
              if PyStr.truthy href then
                match urljoin base_url href with
                | Raised => (Raised, w)
                | Returned article_url =>
                    let text := get_text_strip link in
                    let md1 :=
                      markdown_content
                        ++ [(Formatter.nl ++ "### " ++ text
                               ++ Formatter.nl)%string] in
                    match fetch_page article_url w with
                    | (Raised, w1) => (Raised, w1)
                    | (Returned page_html, w1) =>
                        let md2 :=
                          match page_html with
                          | Some h =>
                              if PyStr.truthy h then
                                match extract_article_content parse h with
                                | Some article_content =>
                                    md1 ++ [content article_content]
                                | None => md1
                                end
                              else md1
                          | None => md1
                          end in
                        scrape_items rest w1
                          (md2 ++ [(Formatter.nl ++ "---"
                                      ++ Formatter.nl)%string])
                    end
                end
              else scrape_items rest w markdown_content
          | None => scrape_items rest w markdown_content
          end
      | None => scrape_items rest w markdown_content
      end
  end.

Fixpoint scrape_sections (headers : list element) (w : World)
  (markdown_content : list string) : outcome (list string) * World :=
  match headers with
  | [] => (Returned markdown_content, w)
  | header :: rest =>
      let section_title := get_text_strip (el_node header) in
      if negb (PyStr.truthy section_title)
         || (String.length section_title <? 2)%nat
      then scrape_sections rest w markdown_content
      else
        let md1 :=
          markdown_content
            ++ [(Formatter.nl ++ "## " ++ section_title
                   ++ Formatter.nl)%string] in
        match find_next ["ul"] header with
        | Some ul =>
            match scrape_items (find_all ["li"] ul) w md1 with
            | (Raised, w2) => (Raised, w2)
            | (Returned md2, w2) => scrape_sections rest w2 md2
            end
        | None => scrape_sections rest w md1
        end
  end.

Definition scrape_from_url (url : string) (w : World)
  : outcome (option (list string)) * World :=
  match fetch_page url w with
  | (Raised, w1) => (Raised, w1)
  | (Returned None, w1) => (Returned None, w1)
  | (Returned (Some html_content), w1) =>
      if negb (PyStr.truthy html_content) then (Returned None, w1)
      else
        let soup := mkElement (parse html_content) [] in
        let main_title := page_title (el_node soup) in
        match Locator.find_topic_section soup with
        | None => (Returned None, w1)
        | Some topic_section =>
            match
              scrape_sections
                (map fst (find_all_el ["h2"; "h3"] topic_section)) w1
                [("# " ++ main_title ++ Formatter.nl)%string]
            with
            | (Raised, w2) => (Raised, w2)
            | (Returned md, w2) => (Returned (Some md), w2)
            end
        end
  end.

End Scraper.

(** The network of the embedding without exceptions: what [fetch_page]
    returns when the request raises nothing but a [RequestException]. *)
Definition quiet_fetch (World : Type)
  (session_get : string -> World -> attempt * World)
  (url : string) (w : World) : option string * World :=
  let (a, w1) := session_get url w in
  match a with
  | Responded true text => (Some text, w1)
  | _ => (None, w1)
  end.

End Raising.

(** * The vocabulary of the properties *)

(** ** The stream of the Formatter: stretches, chunks and fences *)

Module FormatterTerms.
Import Formatter.

(** The elements whose dispatch begins with a flush. *)
Definition flushes (e : node) : bool := is_heading e || is_para e || is_list e.

(** [code_text.strip()] is non-empty. *)
Definition nonblank (s : string) : bool := PyStr.truthy (PyStr.strip s).

(** The raw texts a stretch of the stream appends to the buffer. *)
Definition code_chunks (r : list node) : list string :=
  filter nonblank (map get_text (filter is_code r)).

(** The language read off the first code-bearing element of a stretch. *)
Definition run_language (r : list node) : option string :=
  match filter is_code r with
  | [] => None
  | e :: _ => detect_language e
  end.

(** What a heading, paragraph or list appends after its flush. *)
Definition own_fragments (e : node) : list fragment :=
  if is_heading e then
    [FHeading (heading_digit (match node_name e with
                              | Some nm => nm
                              | None => EmptyString
                              end) + 1) (get_text_strip e)]
  else if is_para e then
    (if PyStr.truthy (get_text_strip e) then [FPara (get_text_strip e)]
     else [])
  else FListOpen :: bullets e.

Definition is_fence (f : fragment) : bool :=
  match f with FFence _ _ => true | _ => false end.

Definition fence_count (fs : list fragment) : nat :=
  List.length (filter is_fence fs).

Definition fence_chunks (f : fragment) : list string :=
  match f with FFence _ chunks => chunks | _ => [] end.

(** The buffer is only filled while the block is open. *)
Definition wf (st : state) : Prop :=
  current_code_block st <> [] -> in_code_block st = true.

(** Two states that the loop cannot tell apart, the output of the first
    being that of the second after [pre]. *)
Definition sim (pre : list fragment) (s1 s2 : state) : Prop :=
  in_code_block s1 = in_code_block s2
  /\ current_code_block s1 = current_code_block s2
  /\ (in_code_block s1 = true -> current_language s1 = current_language s2)
  /\ markdown_content s1 = pre ++ markdown_content s2.

Definition pending_chunks (st : state) : list string :=
  flat_map fence_chunks (markdown_content st) ++ current_code_block st.

(** The stream cut at every heading, paragraph and list: the maximal
    stretches over which the buffer can grow. *)
Fixpoint stretches (es : list node) : list (list node) :=
  match es with
  | [] => [[]]
  | e :: rest =>
      if flushes e then [] :: stretches rest
      else match stretches rest with
           | s :: ss => (e :: s) :: ss
           | [] => [[e]]
           end
  end.

(** A stretch that holds a code-bearing element with non-blank text. *)
Definition productive (s : list node) : bool := nonempty (code_chunks s).

Definition productive_runs (es : list node) : nat :=
  List.length (filter productive (stretches es)).

(** The maximal runs of adjacent code-bearing elements of a stream. *)
Fixpoint code_runs (es : list node) : nat :=
  match es with
  | [] => 0
  | e :: rest =>
      (if is_code e
       then match rest with
            | e' :: _ => if is_code e' then 0 else 1
            | [] => 1
            end
       else 0) + code_runs rest
  end.

Definition text_tag (nm : string) (classes : option (list string))
  (s : string) : node :=
  Tag nm (mkAttrs classes None) [NavigableString s].

Definition pre_python : node :=
  text_tag "pre" (Some ["language-python"]) "print(1)".
Definition pre_plain : node := text_tag "pre" None "print(2)".
Definition para_bye : node := text_tag "p" None "Bye".

(** [<article><pre>a</pre><pre class="language-python">b</pre></article>] *)
Definition late_language_article : node :=
  Tag "article" no_attrs
    [text_tag "pre" None "a"; text_tag "pre" (Some ["language-python"]) "b"].

(** [<article><pre> </pre><p>x</p></article>] *)
Definition blank_code_article : node :=
  Tag "article" no_attrs [text_tag "pre" None " "; text_tag "p" None "x"].

(** [<article><pre class="language-python"> </pre></article>] *)
Definition blank_tagged_article : node :=
  Tag "article" no_attrs [text_tag "pre" (Some ["language-python"]) " "].

(** The first language found on any element of a run. *)
Definition first_detected_language (r : list node) : option string :=
  first_some detect_language r.

End FormatterTerms.

(** ** Strings: blank strings and occurrences *)

Module StrTerms.
Import PyStr.

(** Every character is white space. *)
Fixpoint all_space (s : string) : bool :=
  match s with
  | EmptyString => true
  | String c s' => is_space c && all_space s'
  end.

(** The words [ws] occur in [s] one after the other, without overlap. *)
Fixpoint embeds (ws : list string) (s : string) : Prop :=
  match ws with
  | [] => True
  | w :: ws' => exists A R, s = (A ++ w ++ R)%string /\ embeds ws' R
  end.

(** The places of [s] at which [t] starts. *)
Fixpoint occurrences (t s : string) : nat :=
  (if String.prefix t s then 1 else 0)
  + match s with
    | EmptyString => 0
    | String _ s' => occurrences t s'
    end.

End StrTerms.

(** ** Nested elements: the joined text and sample articles *)

Module NestingTerms.
Import Formatter FormatterTerms.

(** The [content] string assembled from the fragments of [main_content]. *)
Definition article_text (main_content : node) : string :=
  PyStr.join nl (map render (format_main main_content)).

(** [t] occurs at two disjoint places of [s]. *)
Definition occurs_twice (t s : string) : Prop :=
  exists A B C, s = (A ++ t ++ B ++ t ++ C)%string.

(** [<article><pre><code>x</code></pre></article>] *)
Definition code_in_pre_article : node :=
  Tag "article" no_attrs
    [Tag "pre" no_attrs [text_tag "code" None "x"]].

(** [<article><ul><li>a<ul><li>b</li></ul></li></ul></article>] *)
Definition nested_list_article : node :=
  Tag "article" no_attrs
    [Tag "ul" no_attrs
       [Tag "li" no_attrs
          [NavigableString "a"; Tag "ul" no_attrs [text_tag "li" None "b"]]]].

(** [<article><div><pre>x</pre></div></article>] *)
Definition code_in_div_article : node :=
  Tag "article" no_attrs [Tag "div" no_attrs [text_tag "pre" None "x"]].

End NestingTerms.

(** ** The heuristics of the Locator as tests, and sample pages *)

Module LocatorTerms.
Import Locator.

(** A heading whose nearest following [ul] holds at least three links. *)
Definition qualifies (hp : element * element) : bool :=
  match find_next ["ul"] (fst hp) with
  | Some next_ul => (3 <=? link_count next_ul)%nat
  | None => false
  end.

(** The headings in the order the Locator looks at them. *)
Definition headers_in_scan_order (soup : element)
  : list (element * element) :=
  find_all_el ["h2"] soup ++ find_all_el ["h3"] soup.

(** The three heuristics, each as a test on the whole document. *)
Definition header_led (soup : element) : bool :=
  existsb qualifies (find_all_el ["h2"; "h3"] soup).

Definition dense_list (soup : element) : bool :=
  existsb (fun up => (5 <=? link_count (el_node (fst up)))%nat)
          (find_all_el ["ul"] soup).

Definition known_classes : list string :=
  ["post-content"; "entry-content"; "article-content"].

Definition known_container (soup : element) : bool :=
  existsb (fun d => has_class_in known_classes d
                    && Formatter.nonempty (find_all ["a"] d))
          (descendants (el_node soup)).

Definition link (href text : string) : node :=
  Tag "a" (mkAttrs None (Some href)) [NavigableString text].

Definition item (n : node) : node := Tag "li" no_attrs [n].

Definition heading (nm text : string) : node :=
  Tag nm no_attrs [NavigableString text].

Definition three_links : node :=
  Tag "ul" no_attrs
    [item (link "/x" "X"); item (link "/y" "Y"); item (link "/z" "Z")].

Definition two_links : node :=
  Tag "ul" no_attrs [item (link "/x" "X"); item (link "/y" "Y")].

Definition document (ks : list node) : element :=
  mkElement (Tag "[document]" no_attrs ks) [].

(** [<div><h2>Intro</h2><ul>two links</ul></div>] *)
Definition sparse_page : element :=
  document [Tag "div" no_attrs [heading "h2" "Intro"; two_links]].

Definition h3_block : node :=
  Tag "div" no_attrs [heading "h3" "Early"; three_links].

Definition h2_block : node :=
  Tag "section" no_attrs [heading "h2" "Late"; three_links].

(** [<div><h3>Early</h3><ul>three links</ul></div>
     <section><h2>Late</h2><ul>three links</ul></section>] *)
Definition h3_before_h2_page : element := document [h3_block; h2_block].

(** The reading of the claim: the first qualifying heading in document
    order decides. *)
Definition first_in_document_order (soup : element) : option element :=
  first_some (try_header 3) (find_all_el ["h2"; "h3"] soup).

End LocatorTerms.

(** ** The fragments of the orchestrator, and a sample network *)

Module ScraperTerms.

(** What one article contributes between its sub-heading and the
    separator. *)
Definition article_fragments (parse : string -> node)
  (page_html : option string) : list string :=
  match page_html with
  | Some h =>
      if PyStr.truthy h then
        match extract_article_content parse h with
        | Some article_content => [content article_content]
        | None => []
        end
      else []
  | None => []
  end.

Definition sub_heading (text : string) : string :=
  (Formatter.nl ++ "### " ++ text ++ Formatter.nl)%string.

Definition section_heading (section_title : string) : string :=
  (Formatter.nl ++ "## " ++ section_title ++ Formatter.nl)%string.

Definition separator : string :=
  (Formatter.nl ++ "---" ++ Formatter.nl)%string.

(** A topic page without [h1]: [<h2>Intro</h2><ul>three links</ul>]. *)
Definition untitled_page : node :=
  Tag "[document]" no_attrs
    [LocatorTerms.heading "h2" "Intro"; LocatorTerms.three_links].

Definition sample_parse (html : string) : node := untitled_page.

(** A network that serves the topic page and nothing else. *)
Definition topic_only (url : string) (w : unit) : option string * unit :=
  if String.eqb url "topic" then (Some "<html>", w) else (None, w).

(** A network that serves the same markup for every address. *)
Definition always_up (url : string) (w : unit) : option string * unit :=
  (Some "<html>", w).

Definition sample_urljoin (base href : string) : string :=
  (base ++ href)%string.

Definition item_x : node := LocatorTerms.item (LocatorTerms.link "/x" "X").
Definition item_y : node := LocatorTerms.item (LocatorTerms.link "/y" "Y").

(** The document assembled when every fetch succeeds. *)
Definition sample_document : list string :=
  match fst (scrape_from_url sample_parse unit always_up sample_urljoin
               "topic" tt) with
  | Some md => md
  | None => []
  end.

End ScraperTerms.

(** ** The segments of a URL *)

Module NamingTerms.
Import PyStr.

Local Abbreviation slash := ("/"%char).

Fixpoint no_slash (s : string) : bool :=
  match s with
  | EmptyString => true
  | String c s' => negb (Ascii.eqb c slash) && no_slash s'
  end.

(** The last non-empty piece of the URL between slashes. *)
Definition final_nonempty_segment (url : string) : option string :=
  hd_error (filter truthy (rev (split slash url))).

End NamingTerms.

(** ** The Formatter's stream: elements that count, tags set aside *)

Module StreamTerms.
Import Formatter FormatterTerms.

(** The elements some branch of the loop body reacts to. *)
Definition dispatched (e : node) : bool := flushes e || is_code e.

(** A fence with at least one chunk, none of them blank. *)
Definition fence_filled (f : fragment) : bool :=
  match f with
  | FFence _ chunks => nonempty chunks && forallb nonblank chunks
  | _ => true
  end.

(** A code-bearing element has text that survives trimming. *)
Definition code_has_text (e : node) : bool :=
  negb (is_code e) || nonblank (get_text e).

(** A fragment without its language tag. *)
Definition untag (f : fragment) : fragment :=
  match f with
  | FFence _ chunks => FFence None chunks
  | _ => f
  end.

(** What the headings, paragraphs and lists of a stream append, in order. *)
Definition plain_fragments (es : list node) : list fragment :=
  flat_map own_fragments (filter flushes es).

Definition is_heading_line (f : fragment) : bool :=
  match f with FHeading _ _ => true | _ => false end.

(** The heading line of an element, read off its tag name: level 3 for
    [h2], 4 for [h3], 5 for [h4], and none for any other element. *)
Definition heading_line (e : node) : list fragment :=
  match node_name e with
  | Some nm =>
      if String.eqb nm "h2" then [FHeading 3 (get_text_strip e)]
      else if String.eqb nm "h3" then [FHeading 4 (get_text_strip e)]
      else if String.eqb nm "h4" then [FHeading 5 (get_text_strip e)]
      else []
  | None => []
  end.

(** An open block always has text in its buffer. *)
Definition tight (st : state) : Prop :=
  in_code_block st = true -> current_code_block st <> [].

(** The language of [f], when it is a fence, was read off a code-bearing
    element of [es]. *)
Definition tag_from (es : list node) (f : fragment) : Prop :=
  match f with
  | FFence language _ =>
      exists e, In e es /\ is_code e = true /\ detect_language e = language
  | _ => True
  end.

(** Two states with the same buffer, their outputs alike up to tags. *)
Definition alike (pre : list fragment) (s1 s2 : state) : Prop :=
  wf s1 /\ wf s2
  /\ current_code_block s1 = current_code_block s2
  /\ map untag (markdown_content s1) = pre ++ map untag (markdown_content s2).

(** After the elements [seen]: the language of an open block and of every
    fence was read off one of them. *)
Definition tags_traced (seen : list node) (st : state) : Prop :=
  (in_code_block st = true ->
   tag_from seen (FFence (current_language st) []))
  /\ Forall (tag_from seen) (markdown_content st).

(** The fragments that are no fence. *)
Definition plain (fs : list fragment) : list fragment :=
  filter (fun f => negb (is_fence f)) fs.

End StreamTerms.

(** ** Sample pages for the fall-back heuristics *)

Module FallbackTerms.
Import Locator LocatorTerms.

(** [<h2>Intro</h2><ul>two links</ul><div><ul>five links</ul></div>] *)
Definition five_links_page : element :=
  document
    [heading "h2" "Intro"; two_links;
     Tag "div" no_attrs
       [Tag "ul" no_attrs
          [item (link "/a" "A"); item (link "/b" "B"); item (link "/c" "C");
           item (link "/d" "D"); item (link "/e" "E")]]].

(** [<div class="entry-content"><p>no link</p></div>
     <div class="entry-content"><a href="/x">X</a></div>
     <div class="article-content"><a href="/y">Y</a></div>] *)
Definition containers_page : element :=
  document
    [Tag "div" (mkAttrs (Some ["entry-content"]) None)
       [Tag "p" no_attrs [NavigableString "no link"]];
     Tag "div" (mkAttrs (Some ["entry-content"]) None) [link "/x" "X"];
     Tag "div" (mkAttrs (Some ["wide"; "article-content"]) None)
       [link "/y" "Y"]].

(** [c], paired with its parent, is a child of that parent. *)
Definition child_ok (p : element * element) : Prop :=
  In (el_node (fst p)) (node_contents (el_node (snd p))).

(** [c] is the document [soup] itself or lies below it. *)
Definition in_document (soup c : element) : Prop :=
  c = soup \/ In c (map fst (below (el_node soup) (el_after soup))).

End FallbackTerms.

(** ** The orchestrator: items and sections that count *)

Module OutlineTerms.

(** The item has a link with a non-empty target. *)
Definition usable (li : node) : bool :=
  match find ["a"] li with
  | Some link =>
      match a_href (node_attrs link) with
      | Some href => PyStr.truthy href
      | None => false
      end
  | None => false
  end.

(** The stripped title of the heading has at least two characters. *)
Definition title_kept (header : element) : bool :=
  (2 <=? String.length (get_text_strip (el_node header)))%nat.

(** A topic page of two sections, the first with a one-letter title:
    [<h2>A</h2><ul>one link, one item without link</ul>
     <h2>Intro</h2><ul>three links</ul>]. *)
Definition two_sections_page : node :=
  Tag "[document]" no_attrs
    [LocatorTerms.heading "h2" "A";
     Tag "ul" no_attrs
       [LocatorTerms.item (LocatorTerms.link "/p" "P");
        LocatorTerms.item (NavigableString "plain")];
     LocatorTerms.heading "h2" "Intro"; LocatorTerms.three_links].

(** An article page: [<h1>T</h1><article><p>Body</p></article>]. *)
Definition article_page : node :=
  Tag "[document]" no_attrs
    [LocatorTerms.heading "h1" "T";
     Tag "article" no_attrs [LocatorTerms.heading "p" "Body"]].

(** A parser that knows the markup of the topic page and takes everything
    else for the article page. *)
Definition two_pages (html : string) : node :=
  if String.eqb html "<topic>" then two_sections_page else article_page.

(** A network that serves the topic page at "topic" and the article markup
    at every other address but the one that ends in "/y". *)
Definition y_is_down (url : string) (w : unit) : option string * unit :=
  if String.eqb url "topic" then (Some "<topic>", w)
  else if String.eqb url "https://www.geeksforgeeks.org/y" then (None, w)
  else (Some "<article>", w).

End OutlineTerms.

(** ** What the main loop leaves in the files *)

Module SavingTerms.

(** What one URL, scraped in the world [w], leaves in the files. *)
Definition saved (parse : string -> node) (World : Type)
  (fetch_page : string -> World -> option string * World)
  (urljoin : string -> string -> string)
  (url : string) (w : World) (fs : files) : files :=
  match fst (scrape_from_url parse World fetch_page urljoin url w),
        output_filename url with
  | Some md, Some f =>
      write_file ("scraped_content/" ++ f) (PyStr.join Formatter.nl md) fs
  | _, _ => fs
  end.

(** A file that was there before, or one placed directly in the output
    directory under a name without a slash. *)
Definition inside_directory (fs : files) (entry : string * string) : Prop :=
  In entry fs
  \/ exists seg,
       fst entry = ("scraped_content/" ++ seg ++ ".md")%string
       /\ NamingTerms.no_slash seg = true.

End SavingTerms.

(** ** A paragraph nested in a code-bearing element *)

Module FenceTerms.
Import FormatterTerms.

(** [<article><div class="code"><p>Hello</p></div></article>] *)
Definition paragraph_in_code_article : node :=
  Tag "article" no_attrs
    [Tag "div" (mkAttrs (Some ["code"]) None) [text_tag "p" None "Hello"]].

End FenceTerms.

(** ** An article address that the request cannot take *)

Module RaisingTerms.

(** A host label of 64 characters, one more than a label may have. *)
Definition long_label : string :=
  "aaaaaaaaaaaaaaaaaaaaaaaaaaaaaaaaaaaaaaaaaaaaaaaaaaaaaaaaaaaaaaaa".

Definition long_host_url : string := ("http://" ++ long_label ++ ".com/")%string.

(** [<h2>Intro</h2><ul><li><a href="http://aaa...a.com/">X</a></li>
     <li><a href="/y">Y</a></li><li><a href="/z">Z</a></li></ul>] *)
Definition long_host_page : node :=
  Tag "[document]" no_attrs
    [LocatorTerms.heading "h2" "Intro";
     Tag "ul" no_attrs
       [LocatorTerms.item (LocatorTerms.link long_host_url "X");
        LocatorTerms.item (LocatorTerms.link "/y" "Y");
        LocatorTerms.item (LocatorTerms.link "/z" "Z")]].

Definition long_host_parse (html : string) : node := long_host_page.

(** A network that serves every address; on the address with the long
    label the request ends in an exception that is no
    [requests.RequestException] (the host name cannot be encoded). *)
Definition long_host_session (url : string) (w : unit) : attempt * unit :=
  if String.eqb url "topic" then (Responded true "<topic>", w)
  else if String.eqb url long_host_url then (OtherError, w)
  else (Responded true "<article>", w).

(** Joining keeps an absolute address and puts the base before a path. *)
Definition absolute_or_joined (base href : string) : outcome string :=
  if String.prefix "http://" href then Returned href
  else Returned (base ++ href)%string.

End RaisingTerms.

(** * Properties *)

(** ** The element stream of the Formatter *)

Module FormatterFacts.
Import Formatter FormatterTerms FenceTerms.

Lemma emit_all_nil (st : state) : emit_all [] st = st.
Proof.
  destruct st as [i b l o]; unfold emit_all; simpl.
  now rewrite app_nil_r.
Qed.

Lemma code_is_not_flushing (e : node) : is_code e = true -> flushes e = false.
Proof.
  destruct e as [s | nm a ks]; [ discriminate | ].
  unfold is_code, flushes, is_heading, is_para, is_list, has_name; simpl.
  destruct (String.eqb_spec nm "pre") as [-> | _]; [ reflexivity | ].
  destruct (String.eqb_spec nm "code") as [-> | _]; [ reflexivity | ].
  destruct (String.eqb_spec nm "div") as [-> | _]; [ reflexivity | ].
  discriminate.
Qed.

Lemma flushing_is_not_code (e : node) : flushes e = true -> is_code e = false.
Proof.
  intros H. destruct (is_code e) eqn:E; [ | reflexivity ].
  apply code_is_not_flushing in E. congruence.
Qed.

Lemma list_is_not_heading_or_para (e : node) :
  is_list e = true -> is_heading e = false /\ is_para e = false.
Proof.
  destruct e as [s | nm a ks]; [ discriminate | ].
  unfold is_heading, is_para, is_list, has_name; simpl.
  destruct (String.eqb_spec nm "ul") as [-> | _]; [ now split | ].
  destruct (String.eqb_spec nm "ol") as [-> | _]; [ now split | ].
  discriminate.
Qed.

(** The dispatch of a heading, paragraph or list: flush, then its own
    fragments. *)
Lemma step_flushing (st : state) (e : node) :
  flushes e = true -> step st e = emit_all (own_fragments e) (flush st).
Proof.
  intros H. unfold step, own_fragments.
  destruct (is_heading e) eqn:Hh; [ reflexivity | ].
  destruct (is_para e) eqn:Hp.
  - destruct (PyStr.truthy (get_text_strip e)); [ reflexivity | ].
    now rewrite emit_all_nil.
  - rewrite (flushing_is_not_code e H).
    unfold flushes in H. rewrite Hh, Hp in H. simpl in H. now rewrite H.
Qed.

(** The dispatch of any other element. *)
Lemma step_quiet (st : state) (e : node) :
  flushes e = false ->
  step st e = if is_code e
              then push_code (get_text e) (open_block (detect_language e) st)
              else st.
Proof.
  intros H. unfold flushes in H.
  apply orb_false_elim in H as [H Hl]. apply orb_false_elim in H as [Hh Hp].
  unfold step. rewrite Hh, Hp, Hl. reflexivity.
Qed.

Lemma run_app (st : state) (l1 l2 : list node) :
  run st (l1 ++ l2) = run (run st l1) l2.
Proof. unfold run. apply fold_left_app. Qed.

Lemma run_cons (st : state) (e : node) (l : list node) :
  run st (e :: l) = run (step st e) l.
Proof. reflexivity. Qed.

Lemma own_fragments_no_fence (e : node) :
  filter is_fence (own_fragments e) = [].
Proof.
  unfold own_fragments.
  destruct (is_heading e); [ reflexivity | ].
  destruct (is_para e).
  - now destruct (PyStr.truthy (get_text_strip e)).
  - simpl. unfold bullets. induction (find_all ["li"] e); simpl; auto.
Qed.

Lemma own_fragments_no_chunks (e : node) :
  flat_map fence_chunks (own_fragments e) = [].
Proof.
  unfold own_fragments.
  destruct (is_heading e); [ reflexivity | ].
  destruct (is_para e).
  - now destruct (PyStr.truthy (get_text_strip e)).
  - simpl. unfold bullets. induction (find_all ["li"] e); simpl; auto.
Qed.

(** *** States the loop cannot tell apart *)

Lemma sim_flush pre s1 s2 : sim pre s1 s2 -> sim pre (flush s1) (flush s2).
Proof.
  intros H. pose proof H as (Hi & Hb & Hl & Ho).
  unfold flush. rewrite <- Hi, <- Hb.
  destruct (in_code_block s1 && nonempty (current_code_block s1)) eqn:E;
    [ | exact H ].
  apply andb_prop in E as [E _]. rewrite <- (Hl E).
  repeat split; simpl; auto.
  rewrite Ho. now rewrite app_assoc.
Qed.

Lemma sim_emit_all pre fs s1 s2 :
  sim pre s1 s2 -> sim pre (emit_all fs s1) (emit_all fs s2).
Proof.
  intros (Hi & Hb & Hl & Ho). repeat split; simpl; auto.
  rewrite Ho. now rewrite app_assoc.
Qed.

Lemma sim_step pre s1 s2 e : sim pre s1 s2 -> sim pre (step s1 e) (step s2 e).
Proof.
  intros H. destruct (flushes e) eqn:F.
  - rewrite !step_flushing by assumption.
    now apply sim_emit_all, sim_flush.
  - rewrite !step_quiet by assumption.
    destruct (is_code e); [ | assumption ].
    destruct H as (Hi & Hb & Hl & Ho).
    unfold push_code, open_block. rewrite <- Hi.
    destruct (in_code_block s1) eqn:E;
      destruct (PyStr.truthy (PyStr.strip (get_text e)));
      repeat split; simpl; auto; congruence.
Qed.

Lemma sim_run pre es : forall s1 s2,
  sim pre s1 s2 -> sim pre (run s1 es) (run s2 es).
Proof.
  induction es as [| e es IH]; intros s1 s2 H; [ exact H | ].
  rewrite !run_cons. now apply IH, sim_step.
Qed.

(** From a closed accumulator the loop behaves as from the start. *)
Lemma closed_as_initial (st : state) (es : list node) :
  in_code_block st = false -> current_code_block st = [] ->
  markdown_content (flush (run st es))
  = markdown_content st ++ format_elements es.
Proof.
  intros Hi Hb.
  assert (S : sim (markdown_content st) st initial).
  { repeat split; simpl; auto; try congruence. now rewrite app_nil_r. }
  apply (sim_run _ es), sim_flush in S.
  destruct S as (_ & _ & _ & Ho). exact Ho.
Qed.

(** *** A stretch of the stream without heading, paragraph or list *)

Lemma run_quiet (r : list node) : forall st,
  Forall (fun e => flushes e = false) r ->
  run st r
  = mkState (in_code_block st || nonempty (filter is_code r))
      (current_code_block st ++ code_chunks r)
      (if in_code_block st then current_language st
       else match filter is_code r with
            | [] => current_language st
            | e :: _ => detect_language e
            end)
      (markdown_content st).
Proof.
  induction r as [| e r IH]; intros st H.
  - destruct st as [i b l o]; unfold code_chunks; simpl.
    rewrite app_nil_r, orb_false_r. now destruct i.
  - inversion H as [| ? ? He Hr]; subst.
    rewrite run_cons, step_quiet by assumption.
    rewrite IH by assumption. unfold code_chunks. simpl.
    destruct (is_code e) eqn:C; simpl; [ | reflexivity ].
    unfold push_code, open_block, nonblank.
    destruct st as [i b l o]; simpl.
    destruct i; destruct (PyStr.truthy (PyStr.strip (get_text e))); simpl;
      rewrite ?orb_true_r, <- ?app_assoc; reflexivity.
Qed.

Lemma code_chunks_app (r1 r2 : list node) :
  code_chunks (r1 ++ r2) = code_chunks r1 ++ code_chunks r2.
Proof.
  unfold code_chunks. now rewrite filter_app, map_app, filter_app.
Qed.

Lemma format_flushing_first (e : node) (rest : list node) :
  flushes e = true ->
  format_elements (e :: rest) = own_fragments e ++ format_elements rest.
Proof.
  intros F. unfold format_elements at 1.
  rewrite run_cons, step_flushing by assumption.
  now rewrite closed_as_initial.
Qed.

(** One stretch, entered with a closed accumulator, gives one fence. *)
Lemma quiet_stretch_single_fence (st : state) (r rest : list node) :
  in_code_block st = false -> current_code_block st = [] ->
  Forall (fun e => flushes e = false) r ->
  match rest with [] => True | e :: _ => flushes e = true end ->
  code_chunks r <> [] ->
  markdown_content (flush (run st (r ++ rest)))
  = markdown_content st
      ++ FFence (run_language r) (code_chunks r) :: format_elements rest.
Proof.
  intros Hi Hb Hr Hrest Hc.
  rewrite run_app, (run_quiet r st Hr), Hi, Hb. simpl.
  assert (Hl : match filter is_code r with
               | [] => current_language st
               | e :: _ => detect_language e
               end = run_language r
               /\ nonempty (filter is_code r) = true).
  { unfold run_language, code_chunks in *.
    destruct (filter is_code r); [ now elim Hc | now split ]. }
  destruct Hl as [-> ->].
  set (X := mkState true (code_chunks r) (run_language r)
              (markdown_content st)).
  assert (HX : flush X
               = mkState false [] (run_language r)
                   (markdown_content st
                      ++ [FFence (run_language r) (code_chunks r)])).
  { unfold flush, X. simpl.
    destruct (code_chunks r); [ now elim Hc | reflexivity ]. }
  destruct rest as [| e rest'].
  - simpl. rewrite HX. simpl. reflexivity.
  - rewrite run_cons, step_flushing, HX by assumption.
    rewrite closed_as_initial by reflexivity. simpl.
    rewrite format_flushing_first by assumption.
    now rewrite <- !app_assoc.
Qed.

(** *** What the fences hold *)

Lemma wf_flush (st : state) : wf st -> wf (flush st).
Proof.
  intros W. unfold flush.
  destruct (in_code_block st && nonempty (current_code_block st));
    [ | exact W ].
  intros H. now elim H.
Qed.

Lemma wf_step (st : state) (e : node) : wf st -> wf (step st e).
Proof.
  intros W. destruct (flushes e) eqn:F.
  - rewrite step_flushing by assumption. apply wf_flush in W. exact W.
  - rewrite step_quiet by assumption.
    destruct (is_code e); [ | exact W ].
    unfold push_code, open_block, wf in *.
    destruct (in_code_block st) eqn:E;
      destruct (PyStr.truthy (PyStr.strip (get_text e))); simpl; auto.
Qed.

Lemma wf_run (es : list node) : forall st, wf st -> wf (run st es).
Proof.
  induction es as [| e es IH]; intros st W; [ exact W | ].
  rewrite run_cons. now apply IH, wf_step.
Qed.

Lemma wf_initial : wf initial.
Proof. intros H. now elim H. Qed.

(** A flush moves the buffer into the output and leaves it empty. *)
Lemma flush_pending (st : state) :
  wf st ->
  flat_map fence_chunks (markdown_content (flush st)) = pending_chunks st
  /\ current_code_block (flush st) = [].
Proof.
  intros W. unfold flush, pending_chunks, wf in *.
  destruct (in_code_block st) eqn:E; simpl.
  - destruct (current_code_block st) eqn:B; simpl.
    + rewrite B, app_nil_r. now split.
    + rewrite flat_map_app. simpl. now rewrite app_nil_r.
  - destruct (current_code_block st) eqn:B.
    + rewrite app_nil_r. now split.
    + discriminate W. discriminate.
Qed.

Lemma pending_step (st : state) (e : node) :
  wf st -> pending_chunks (step st e) = pending_chunks st ++ code_chunks [e].
Proof.
  intros W. destruct (flushes e) eqn:F.
  - rewrite step_flushing by assumption.
    destruct (flush_pending st W) as [Hc Hb].
    unfold pending_chunks at 1. simpl.
    rewrite flat_map_app, own_fragments_no_chunks, Hc, Hb, !app_nil_r.
    unfold code_chunks. simpl.
    rewrite (flushing_is_not_code e F). simpl. now rewrite app_nil_r.
  - rewrite step_quiet by assumption. unfold code_chunks. simpl.
    destruct (is_code e); simpl; [ | now rewrite app_nil_r ].
    unfold push_code, open_block, pending_chunks, nonblank.
    destruct (in_code_block st);
      destruct (PyStr.truthy (PyStr.strip (get_text e))); simpl;
      rewrite ?app_nil_r, ?app_assoc; reflexivity.
Qed.

Lemma pending_run (es : list node) : forall st,
  wf st -> pending_chunks (run st es) = pending_chunks st ++ code_chunks es.
Proof.
  induction es as [| e es IH]; intros st W.
  - unfold code_chunks. simpl. now rewrite app_nil_r.
  - rewrite run_cons, IH by now apply wf_step.
    rewrite pending_step by assumption.
    change (e :: es) with ([e] ++ es).
    now rewrite code_chunks_app, app_assoc.
Qed.

(** Every chunk that reaches a fence is the raw text of a code-bearing
    element, and none is lost or reordered. *)
Lemma fences_hold_code_chunks (es : list node) :
  flat_map fence_chunks (format_elements es) = code_chunks es.
Proof.
  unfold format_elements.
  destruct (flush_pending (run initial es) (wf_run es initial wf_initial))
    as [-> _].
  now rewrite pending_run by exact wf_initial.
Qed.

(** *** Counting the flushes *)

Lemma stretches_nonempty (es : list node) : stretches es <> [].
Proof.
  destruct es as [| e es]; simpl; [ discriminate | ].
  destruct (flushes e); [ discriminate | ].
  destruct (stretches es); discriminate.
Qed.

Lemma fence_count_app (a b : list fragment) :
  fence_count (a ++ b) = fence_count a + fence_count b.
Proof. unfold fence_count. now rewrite filter_app, length_app. Qed.

Lemma flush_count (st : state) :
  wf st ->
  fence_count (markdown_content (flush st))
  = fence_count (markdown_content st)
    + (if nonempty (current_code_block st) then 1 else 0).
Proof.
  intros W. unfold flush, wf in *.
  destruct (current_code_block st) eqn:B; simpl.
  - rewrite andb_false_r. lia.
  - rewrite W by discriminate. simpl. rewrite fence_count_app. reflexivity.
Qed.

Lemma step_quiet_effect (st : state) (e : node) :
  flushes e = false ->
  markdown_content (step st e) = markdown_content st
  /\ current_code_block (step st e)
     = current_code_block st ++ code_chunks [e].
Proof.
  intros F. rewrite step_quiet by assumption. unfold code_chunks. simpl.
  destruct (is_code e); simpl; [ | now rewrite app_nil_r ].
  unfold push_code, open_block, nonblank.
  destruct (in_code_block st);
    destruct (PyStr.truthy (PyStr.strip (get_text e))); simpl;
    rewrite ?app_nil_r; now split.
Qed.

Lemma count_run (es : list node) : forall st,
  wf st ->
  fence_count (markdown_content (flush (run st es)))
  = fence_count (markdown_content st)
    + match stretches es with
      | s :: ss =>
          (if nonempty (current_code_block st ++ code_chunks s)
           then 1 else 0)
          + List.length (filter productive ss)
      | [] => 0
      end.
Proof.
  induction es as [| e es IH]; intros st W.
  - simpl. unfold code_chunks. simpl. rewrite app_nil_r.
    rewrite flush_count by assumption. lia.
  - rewrite run_cons. rewrite IH by now apply wf_step.
    simpl stretches. destruct (flushes e) eqn:F.
    + rewrite step_flushing by assumption. simpl.
      rewrite fence_count_app. unfold fence_count at 2.
      rewrite own_fragments_no_fence. simpl.
      rewrite flush_count by assumption.
      destruct (flush_pending st W) as [_ ->].
      unfold code_chunks at 2. simpl. rewrite app_nil_r.
      destruct (stretches es) as [| s ss]; simpl.
      * lia.
      * unfold productive at 2. destruct (nonempty (code_chunks s)); simpl; lia.
    + destruct (step_quiet_effect st e F) as [-> ->].
      pose proof (stretches_nonempty es) as NE.
      destruct (stretches es) as [| s ss].
      * now elim NE.
      * change (e :: s) with ([e] ++ s).
        now rewrite code_chunks_app, app_assoc.
Qed.

Lemma fence_count_is_productive_runs (es : list node) :
  fence_count (format_elements es) = productive_runs es.
Proof.
  unfold format_elements, productive_runs.
  rewrite count_run by exact wf_initial. simpl.
  destruct (stretches es) as [| s ss]; [ reflexivity | ].
  simpl. unfold productive at 2. now destruct (nonempty (code_chunks s)).
Qed.

(** With text in the buffer, a heading, paragraph or list puts exactly
    one fence in front of its own fragments and closes the block. *)
Lemma flush_before_own (st : state) (e : node) :
  in_code_block st = true -> current_code_block st <> [] ->
  flushes e = true ->
  step st e
  = mkState false [] (current_language st)
      (markdown_content st
         ++ FFence (current_language st) (current_code_block st)
            :: own_fragments e).
Proof.
  intros Hi Hb F. rewrite step_flushing by assumption.
  unfold flush. rewrite Hi.
  destruct (current_code_block st) eqn:B; [ now elim Hb | ].
  unfold emit_all. simpl. now rewrite <- app_assoc.
Qed.

(** *** Sample articles *)

(** *** Code runs and fences *)

Lemma filter_all_true {A : Type} (f : A -> bool) (l : list A) :
  Forall (fun x => f x = true) l -> filter f l = l.
Proof.
  induction 1 as [| x l Hx _ IH]; simpl; [ reflexivity | ].
  now rewrite Hx, IH.
Qed.

(** C1 (as amended): a run of adjacent code-bearing elements that is entered
    with the accumulator closed, is ended by a heading, a paragraph, a list or
    the end of the stream, and holds at least one element whose text is not
    blank, produces exactly one fence at its place in the output.  The fence
    holds, in order, the raw texts of the run's elements that are non-empty
    after trimming, and carries the language detected on the first element of
    the run (none when that element has no language class). *)
Theorem code_run_single_fence
  (st : state) (first : node) (more rest : list node) :
  in_code_block st = false -> current_code_block st = [] ->
  Forall (fun e => is_code e = true) (first :: more) ->
  match rest with [] => True | e :: _ => flushes e = true end ->
  filter nonblank (map get_text (first :: more)) <> [] ->
  markdown_content (flush (run st ((first :: more) ++ rest)))
  = markdown_content st
      ++ FFence (detect_language first)
           (filter nonblank (map get_text (first :: more)))
         :: format_elements rest.
Proof.
  intros Hi Hb Hcode Hrest Hne.
  assert (Hq : Forall (fun e => flushes e = false) (first :: more)).
  { eapply Forall_impl; [ | exact Hcode ].
    intros e He. now apply code_is_not_flushing. }
  assert (Hc : code_chunks (first :: more)
               = filter nonblank (map get_text (first :: more))).
  { unfold code_chunks. now rewrite (filter_all_true is_code _ Hcode). }
  assert (Hl : run_language (first :: more) = detect_language first).
  { unfold run_language. now rewrite (filter_all_true is_code _ Hcode). }
  rewrite <- Hc, <- Hl.
  apply quiet_stretch_single_fence; try assumption.
  now rewrite Hc.
Qed.

(** An instance: two adjacent [pre], the first tagged, before a paragraph. *)
Lemma code_run_single_fence_witness :
  markdown_content
    (flush (run initial ((pre_python :: [pre_plain]) ++ [para_bye])))
  = markdown_content initial
      ++ FFence (detect_language pre_python)
           (filter nonblank (map get_text (pre_python :: [pre_plain])))
         :: format_elements [para_bye].
Proof.
  apply code_run_single_fence.
  - reflexivity.
  - reflexivity.
  - repeat constructor.
  - reflexivity.
  - vm_compute. discriminate.
Defined.

(** Two adjacent [pre] between two paragraphs: one fence, tagged by the
    first. *)
Example hello_code_bye :
  format_elements [text_tag "p" None "Hello"; pre_python; pre_plain; para_bye]
  = [FPara "Hello"; FFence (Some "python") ["print(1)"; "print(2)"];
     FPara "Bye"].
Proof. reflexivity. Qed.

(** Why the run has to be entered with the accumulator closed: after a
    blank run the block stays open, and the next run keeps the language that
    was captured then. *)
Example open_block_survives_blank_run :
  format_elements
    [text_tag "pre" (Some ["language-x"]) " "; para_bye; pre_python]
  = [FPara "Bye"; FFence (Some "x") ["print(1)"]].
Proof. reflexivity. Qed.

(** C1 (as stated) fails: the language class of a later element of the run
    is never looked at once the block is open. *)
Lemma late_language_is_ignored :
  Forall (fun e => is_code e = true)
    (find_all content_tags late_language_article)
  /\ first_detected_language (find_all content_tags late_language_article)
     = Some "python"
  /\ format_main late_language_article = [FFence None ["a"; "b"]].
Proof.
  split; [ | split ].
  - vm_compute. repeat constructor.
  - reflexivity.
  - reflexivity.
Qed.

(** C2 (as amended): when the block is open with text in the buffer, the
    dispatch of a heading, paragraph or list appends exactly one fence, in
    front of that element's own fragments, and closes the block; over a whole
    stream the number of fences equals the number of maximal stretches
    between headings, paragraphs and lists that hold a code-bearing element
    with non-blank text; the chunks of the fences, taken in order, are
    exactly the non-blank raw texts of the code-bearing elements; and so every
    chunk of every fence is the raw text of a code-bearing element of the
    stream. *)
Theorem flushes_match_productive_runs (es : list node) :
  (forall st e,
      in_code_block st = true -> current_code_block st <> [] ->
      flushes e = true ->
      markdown_content (step st e)
      = markdown_content st
          ++ FFence (current_language st) (current_code_block st)
             :: own_fragments e
      /\ filter is_fence (own_fragments e) = []
      /\ in_code_block (step st e) = false)
  /\ fence_count (format_elements es) = productive_runs es
  /\ flat_map fence_chunks (format_elements es) = code_chunks es
  /\ (forall f chunk,
        In f (format_elements es) -> In chunk (fence_chunks f) ->
        exists e,
          In e es /\ is_code e = true /\ nonblank (get_text e) = true
          /\ chunk = get_text e).
Proof.
  split; [ | split; [ | split ] ].
  - intros st e Hi Hb F.
    rewrite (flush_before_own st e Hi Hb F). simpl.
    split; [ reflexivity | split; [ apply own_fragments_no_fence | reflexivity ] ].
  - apply fence_count_is_productive_runs.
  - apply fences_hold_code_chunks.
  - intros f chunk Hf Hc.
    assert (H : In chunk (flat_map fence_chunks (format_elements es)))
      by (apply in_flat_map; eauto).
    rewrite fences_hold_code_chunks in H. unfold code_chunks in H.
    apply filter_In in H as [H N].
    apply in_map_iff in H as (e & <- & He).
    apply filter_In in He as [He C]. now exists e.
Qed.

(** An instance: a paragraph met with one chunk in the buffer, and a stream
    with one productive stretch. *)
Lemma flushes_match_productive_runs_witness :
  markdown_content
    (step (mkState true ["print(1)"] (Some "python") []) para_bye)
  = [FFence (Some "python") ["print(1)"]; FPara "Bye"]
  /\ fence_count (format_elements [pre_python; pre_plain; para_bye]) = 1.
Proof.
  destruct (flushes_match_productive_runs [pre_python; pre_plain; para_bye])
    as [Hstep [Hcount _]].
  split.
  - destruct (Hstep (mkState true ["print(1)"] (Some "python") []) para_bye)
      as [H _].
    + reflexivity.
    + discriminate.
    + reflexivity.
    + exact H.
  - rewrite Hcount. reflexivity.
Defined.

(** The raw text of a code-bearing element takes in what is nested in it:
    the text of a paragraph inside a [div] of class [code] is fenced with the
    [div] and then emitted again as a paragraph. *)
Example nested_paragraph_text_is_fenced :
  find_all content_tags paragraph_in_code_article
  = [Tag "div" (mkAttrs (Some ["code"]) None) [text_tag "p" None "Hello"];
     text_tag "p" None "Hello"]
  /\ format_main paragraph_in_code_article
     = [FFence None ["Hello"]; FPara "Hello"].
Proof. split; reflexivity. Qed.

(** C2 (as stated) fails: a code run whose texts are all blank leaves the
    block open with an empty buffer, the paragraph after it flushes nothing,
    and the stream has one code run but no fence. *)
Lemma blank_run_is_not_flushed :
  find_all content_tags blank_code_article
  = [text_tag "pre" None " "; text_tag "p" None "x"]
  /\ in_code_block (run initial [text_tag "pre" None " "]) = true
  /\ format_main blank_code_article = [FPara "x"]
  /\ fence_count (format_main blank_code_article) = 0
  /\ code_runs (find_all content_tags blank_code_article) = 1.
Proof. repeat split. Qed.

(** C5 (as amended): a run of code-bearing elements whose texts are all
    empty after trimming adds nothing to the output, whatever language classes
    its elements carry: neither the end of the stream nor a following heading,
    paragraph or list emits a fence for it. *)
Theorem blank_code_run_is_dropped (st : state) (r : list node) :
  current_code_block st = [] ->
  Forall (fun e => is_code e = true /\ nonblank (get_text e) = false) r ->
  markdown_content (flush (run st r)) = markdown_content st
  /\ (forall e, flushes e = true ->
        markdown_content (step (run st r) e)
        = markdown_content st ++ own_fragments e).
Proof.
  intros Hb Hr.
  assert (Hq : Forall (fun e => flushes e = false) r).
  { eapply Forall_impl; [ | exact Hr ].
    intros e [He _]. now apply code_is_not_flushing. }
  assert (Hc : code_chunks r = []).
  { unfold code_chunks. clear Hq. induction Hr as [| e r [He Hn] _ IH];
      simpl; [ reflexivity | ].
    rewrite He. simpl. now rewrite Hn. }
  assert (Hf : flush (run st r) = run st r).
  { rewrite (run_quiet r st Hq), Hb, Hc. unfold flush. simpl.
    now rewrite andb_false_r. }
  assert (Ho : markdown_content (run st r) = markdown_content st).
  { now rewrite (run_quiet r st Hq). }
  split.
  - now rewrite Hf.
  - intros e F. rewrite step_flushing by assumption. rewrite Hf. simpl.
    now rewrite Ho.
Qed.

(** An instance: a single tagged [pre] that holds one space. *)
Lemma blank_code_run_is_dropped_witness :
  markdown_content
    (flush (run initial [text_tag "pre" (Some ["language-python"]) " "]))
  = [].
Proof.
  apply (blank_code_run_is_dropped initial
           [text_tag "pre" (Some ["language-python"]) " "]).
  - reflexivity.
  - repeat constructor.
Defined.

(** C5 (as stated) fails: the blank block with a language class leaves no
    fence behind, tagged or not. *)
Lemma empty_fence_is_not_emitted :
  detect_language (text_tag "pre" (Some ["language-python"]) " ")
  = Some "python"
  /\ format_main blank_tagged_article = []
  /\ ~ In (FFence (Some "python") []) (format_main blank_tagged_article).
Proof.
  split; [ reflexivity | split; [ reflexivity | ] ].
  intros H. exact H.
Qed.

End FormatterFacts.

(** ** Strings: trimming and occurrences *)

Module StrFacts.
Import PyStr StrTerms.

Lemma sapp_assoc (a b c : string) : ((a ++ b) ++ c = a ++ (b ++ c))%string.
Proof. induction a as [| x a IH]; simpl; [ reflexivity | now rewrite IH ]. Qed.

Lemma sapp_nil_r (a : string) : (a ++ "" = a)%string.
Proof. induction a as [| x a IH]; simpl; [ reflexivity | now rewrite IH ]. Qed.

Lemma concat_app (l1 l2 : list string) :
  concat (l1 ++ l2) = (concat l1 ++ concat l2)%string.
Proof.
  induction l1 as [| x l1 IH]; simpl; [ reflexivity | ].
  unfold concat in *. simpl. now rewrite IH, sapp_assoc.
Qed.

Lemma lstrip_all_space (s : string) : all_space (lstrip s) = all_space s.
Proof.
  induction s as [| c s IH]; simpl; [ reflexivity | ].
  destruct (is_space c) eqn:E; simpl; [ exact IH | now rewrite E ].
Qed.

Lemma rstrip_empty (s : string) : is_empty (rstrip s) = all_space s.
Proof.
  induction s as [| c s IH]; simpl; [ reflexivity | ].
  rewrite IH. now destruct (is_space c && all_space s).
Qed.

(** A string survives trimming exactly when it has a visible character. *)
Lemma strip_truthy (s : string) : truthy (strip s) = negb (all_space s).
Proof.
  unfold truthy, strip. now rewrite rstrip_empty, lstrip_all_space.
Qed.

Lemma all_space_app (a b : string) :
  all_space (a ++ b) = all_space a && all_space b.
Proof.
  induction a as [| c a IH]; simpl; [ reflexivity | ].
  now rewrite IH, andb_assoc.
Qed.

Lemma visible_inside (u t v : string) :
  truthy (strip t) = true -> truthy (strip (u ++ t ++ v)) = true.
Proof.
  rewrite !strip_truthy, !all_space_app.
  destruct (all_space t); [ discriminate | ].
  intros _. now rewrite andb_false_r.
Qed.

Lemma embeds_prefix (ws : list string) (A s : string) :
  embeds ws s -> embeds ws (A ++ s).
Proof.
  destruct ws as [| w ws]; simpl; [ trivial | ].
  intros (A' & R & -> & H). exists (A ++ A')%string, R.
  split; [ now rewrite sapp_assoc | exact H ].
Qed.

Lemma embeds_suffix (ws : list string) : forall s B,
  embeds ws s -> embeds ws (s ++ B).
Proof.
  induction ws as [| w ws IH]; simpl; intros s B; [ trivial | ].
  intros (A & R & -> & H). exists A, (R ++ B)%string.
  split; [ now rewrite !sapp_assoc | now apply IH ].
Qed.

Lemma embeds_app (ws1 ws2 : list string) : forall s1 s2,
  embeds ws1 s1 -> embeds ws2 s2 -> embeds (ws1 ++ ws2) (s1 ++ s2).
Proof.
  induction ws1 as [| w ws1 IH]; simpl; intros s1 s2 H1 H2.
  - now apply embeds_prefix.
  - destruct H1 as (A & R & -> & H1). exists A, (R ++ s2)%string.
    split; [ now rewrite !sapp_assoc | now apply IH ].
Qed.

Lemma embeds_concat (ws : list string) : embeds ws (concat ws).
Proof.
  induction ws as [| w ws IH]; simpl; [ trivial | ].
  exists EmptyString, (concat ws). split; [ reflexivity | exact IH ].
Qed.

Lemma embeds_skip (a ws : list string) : forall s,
  embeds (a ++ ws) s -> exists A R, s = (A ++ R)%string /\ embeds ws R.
Proof.
  induction a as [| x a IH]; simpl; intros s H.
  - exists EmptyString, s. now split.
  - destruct H as (A & R & -> & H).
    destruct (IH R H) as (A' & R' & -> & H').
    exists (A ++ x ++ A')%string, R'.
    split; [ now rewrite !sapp_assoc | exact H' ].
Qed.

(** Two of the embedded words, in order, give two disjoint occurrences. *)
Lemma embeds_two (a b d : list string) (x y s : string) :
  embeds (a ++ x :: b ++ y :: d) s ->
  exists A B C, s = (A ++ x ++ B ++ y ++ C)%string.
Proof.
  intros H.
  destruct (embeds_skip a _ s H) as (A0 & R0 & -> & H0).
  simpl in H0. destruct H0 as (A1 & R1 & -> & H1).
  destruct (embeds_skip b _ R1 H1) as (A2 & R2 & -> & H2).
  simpl in H2. destruct H2 as (A3 & R3 & -> & _).
  exists (A0 ++ A1)%string, (A2 ++ A3)%string, R3.
  now rewrite !sapp_assoc.
Qed.

Lemma prefix_app (t r : string) : String.prefix t (t ++ r) = true.
Proof.
  induction t as [| c t IH]; simpl; [ now destruct r | ].
  destruct (ascii_dec c c) as [_ | N]; [ exact IH | now elim N ].
Qed.

Lemma occurrences_prefix (t s : string) :
  String.prefix t s = true -> 1 <= occurrences t s.
Proof.
  intros H. destruct s as [| c s].
  - change (1 <= (if String.prefix t "" then 1 else 0) + 0).
    rewrite H. lia.
  - change (1 <= (if String.prefix t (String c s) then 1 else 0)
                 + occurrences t s).
    rewrite H. lia.
Qed.

Lemma occurrences_after (A : string) : forall t r,
  1 <= occurrences t (A ++ t ++ r).
Proof.
  induction A as [| c A IH]; intros t r.
  - apply occurrences_prefix. exact (prefix_app t r).
  - specialize (IH t r). simpl. lia.
Qed.

Lemma occurrences_twice (t A B C : string) :
  t <> EmptyString -> 2 <= occurrences t (A ++ t ++ B ++ t ++ C).
Proof.
  intros Ht. induction A as [| c A IH].
  - destruct t as [| c t]; [ now elim Ht | ].
    pose proof (prefix_app (String c t) (B ++ String c t ++ C)) as P.
    pose proof (occurrences_after (t ++ B) (String c t) C) as O.
    rewrite sapp_assoc in O.
    change (1 <= occurrences (String c t) (t ++ B ++ String c t ++ C)) in O.
    change (2 <= (if String.prefix (String c t)
                       (String c t ++ B ++ String c t ++ C)
                  then 1 else 0)
                 + occurrences (String c t) (t ++ B ++ String c t ++ C)).
    rewrite P. lia.
  - simpl. lia.
Qed.

End StrFacts.

(** ** The document tree: what lies below a descendant *)

(** Induction on a node, with the hypothesis for every child of a tag. *)
Lemma node_induction (P : node -> Prop) :
  (forall s, P (NavigableString s)) ->
  (forall nm a ks, Forall P ks -> P (Tag nm a ks)) ->
  forall n, P n.
Proof.
  intros P_string P_tag. fix IH 1. intros [s | nm a ks].
  - apply P_string.
  - apply P_tag. induction ks as [| k ks IHks].
    + constructor.
    + constructor; [ apply IH | exact IHks ].
Qed.

(** Lists equal up to the bracketing of [++] and [::]. *)
Ltac reassoc :=
  repeat (rewrite <- app_assoc || rewrite <- app_comm_cons); reflexivity.

Module DomFacts.

Lemma preorder_cons (k : node) (ks : list node) :
  preorder (k :: ks) = k :: descendants k ++ preorder ks.
Proof. reflexivity. Qed.

Lemma descendants_tag (nm : string) (a : attrs) (ks : list node) :
  descendants (Tag nm a ks) = preorder ks.
Proof. reflexivity. Qed.

(** A descendant is followed at once by its own descendants. *)
Lemma descendants_nested (m : node) : forall p,
  In p (descendants m) ->
  exists l1 l2, descendants m = l1 ++ p :: descendants p ++ l2.
Proof.
  induction m as [s | nm a ks IH] using node_induction; intros p Hp.
  - destruct Hp.
  - rewrite descendants_tag in *.
    induction IH as [| k ks Hk _ IHks]; [ destruct Hp | ].
    rewrite preorder_cons in *.
    destruct Hp as [<- | Hp].
    + exists [], (preorder ks). reflexivity.
    + apply in_app_or in Hp as [Hp | Hp].
      * destruct (Hk p Hp) as (l1 & l2 & E).
        exists (k :: l1), (l2 ++ preorder ks).
        rewrite E. reassoc.
      * destruct (IHks Hp) as (l1 & l2 & E).
        exists (k :: descendants k ++ l1), l2.
        rewrite E. reassoc.
Qed.

Lemma descendants_trans (m p c : node) :
  In p (descendants m) -> In c (descendants p) -> In c (descendants m).
Proof.
  intros Hp Hc. destruct (descendants_nested m p Hp) as (l1 & l2 & ->).
  apply in_or_app. right. right. apply in_or_app. now left.
Qed.

Lemma find_all_in (names : list string) (m p : node) :
  In p (find_all names m) <-> In p (descendants m) /\ has_name names p = true.
Proof. unfold find_all. apply filter_In. Qed.

(** [find_all] lists a matching tag and, right after it, the matches
    below that tag. *)
Lemma find_all_nested (names : list string) (m p : node) :
  In p (find_all names m) ->
  exists l1 l2, find_all names m = l1 ++ p :: find_all names p ++ l2.
Proof.
  intros Hp. apply find_all_in in Hp as [Hd Hn].
  destruct (descendants_nested m p Hd) as (l1 & l2 & E).
  exists (filter (has_name names) l1), (filter (has_name names) l2).
  unfold find_all. rewrite E, filter_app. simpl. rewrite Hn.
  now rewrite filter_app.
Qed.

Lemma find_all_trans (names names' : list string) (m p c : node) :
  In p (find_all names m) -> In c (find_all names' p) ->
  In c (find_all names' m).
Proof.
  intros Hp Hc. apply find_all_in in Hp as [Hp _].
  apply find_all_in in Hc as [Hc Hn]. apply find_all_in.
  split; [ now apply descendants_trans with p | exact Hn ].
Qed.

(** The text of a tag contains the text of everything below it. *)
Lemma get_text_nested (p c : node) :
  In c (descendants p) ->
  exists u v, get_text p = (u ++ get_text c ++ v)%string.
Proof.
  intros Hc. destruct (descendants_nested p c Hc) as (l1 & l2 & E).
  unfold get_text, all_strings. rewrite E.
  rewrite flat_map_app. simpl. rewrite flat_map_app.
  set (f := fun d => match d with
                     | NavigableString s => [s]
                     | Tag _ _ _ => []
                     end).
  exists (PyStr.concat (flat_map f l1 ++ f c)), (PyStr.concat (flat_map f l2)).
  rewrite app_assoc, !StrFacts.concat_app. now rewrite !StrFacts.sapp_assoc.
Qed.

End DomFacts.

(** ** Nested elements in the Formatter's stream *)

Module NestingFacts.
Import Formatter FormatterTerms FormatterFacts NestingTerms.

Lemma flush_extends (st : state) :
  exists d, markdown_content (flush st) = markdown_content st ++ d.
Proof.
  unfold flush.
  destruct (in_code_block st && nonempty (current_code_block st)); simpl.
  - eexists. reflexivity.
  - exists []. now rewrite app_nil_r.
Qed.

Lemma step_extends (st : state) (e : node) :
  exists d, markdown_content (step st e) = markdown_content st ++ d.
Proof.
  destruct (flushes e) eqn:F.
  - rewrite step_flushing by assumption. simpl.
    destruct (flush_extends st) as [d ->].
    exists (d ++ own_fragments e). now rewrite app_assoc.
  - destruct (step_quiet_effect st e F) as [-> _].
    exists []. now rewrite app_nil_r.
Qed.

Lemma run_extends (es : list node) : forall st,
  exists d, markdown_content (run st es) = markdown_content st ++ d.
Proof.
  induction es as [| e es IH]; intros st.
  - exists []. simpl. now rewrite app_nil_r.
  - rewrite run_cons. destruct (IH (step st e)) as [d ->].
    destruct (step_extends st e) as [d' ->].
    exists (d' ++ d). now rewrite app_assoc.
Qed.

(** A list appends its bullets, whatever came before. *)
Lemma step_list (st : state) (e : node) :
  is_list e = true ->
  exists d,
    markdown_content (step st e)
    = markdown_content st ++ d ++ FListOpen :: bullets e.
Proof.
  intros L.
  assert (F : flushes e = true).
  { unfold flushes. rewrite L. now rewrite !orb_true_r. }
  destruct (list_is_not_heading_or_para e L) as [Hh Hp].
  rewrite step_flushing by assumption. simpl.
  unfold own_fragments. rewrite Hh, Hp.
  destruct (flush_extends st) as [d ->].
  exists d. now rewrite app_assoc.
Qed.

Lemma embeds_render (f : fragment) :
  StrTerms.embeds (fence_chunks f) (render f).
Proof.
  destruct f as [lv t | t | lang chunks | | t]; simpl; trivial.
  change (StrTerms.embeds chunks
            (nl ++ "```" ++ match lang with
                            | Some l => l
                            | None => EmptyString
                            end
               ++ nl ++ PyStr.concat chunks ++ nl ++ "```" ++ nl)%string).
  do 4 apply StrFacts.embeds_prefix.
  apply StrFacts.embeds_suffix, StrFacts.embeds_concat.
Qed.

(** The chunks of all the fences occur, in order, in the joined text. *)
Lemma embeds_join (fs : list fragment) :
  StrTerms.embeds (flat_map fence_chunks fs)
    (PyStr.join nl (map render fs)).
Proof.
  induction fs as [| f fs IH]; [ exact I | ].
  destruct fs as [| g fs].
  - simpl. rewrite app_nil_r. apply embeds_render.
  - change (StrTerms.embeds
              (fence_chunks f ++ flat_map fence_chunks (g :: fs))
              (render f ++ nl ++ PyStr.join nl (map render (g :: fs)))).
    apply StrFacts.embeds_app; [ apply embeds_render | ].
    now apply StrFacts.embeds_prefix.
Qed.

Lemma code_chunks_one (e : node) :
  is_code e = true -> nonblank (get_text e) = true ->
  code_chunks [e] = [get_text e].
Proof. intros C N. unfold code_chunks. simpl. rewrite C. simpl. now rewrite N. Qed.

(** The stream of [main_content] around an element and one nested in it. *)
Lemma stream_nested (main_content p c : node) :
  In p (find_all content_tags main_content) ->
  In c (find_all content_tags p) ->
  exists l1 l2 l3,
    find_all content_tags main_content = l1 ++ p :: l2 ++ c :: l3.
Proof.
  intros Hp Hc.
  destruct (DomFacts.find_all_nested _ _ _ Hp) as (l1 & l2 & E).
  destruct (in_split _ _ Hc) as (m1 & m2 & E').
  exists l1, m1, (m2 ++ l2). rewrite E, E'. reassoc.
Qed.

Lemma nested_code_text_twice (main_content p c : node) :
  In p (find_all content_tags main_content) ->
  In c (find_all content_tags p) ->
  is_code p = true -> is_code c = true -> nonblank (get_text c) = true ->
  occurs_twice (get_text c) (article_text main_content).
Proof.
  intros Hp Hc Cp Cc Nc.
  destruct (stream_nested _ _ _ Hp Hc) as (l1 & l2 & l3 & E).
  apply DomFacts.find_all_in in Hc as [Hd _].
  destruct (DomFacts.get_text_nested p c Hd) as (u & v & T).
  assert (Np : nonblank (get_text p) = true).
  { unfold nonblank in *. rewrite T. now apply StrFacts.visible_inside. }
  pose proof (embeds_join (format_main main_content)) as M.
  unfold format_main in M at 1.
  rewrite fences_hold_code_chunks, E in M.
  change (l1 ++ p :: l2 ++ c :: l3)
    with (l1 ++ [p] ++ l2 ++ [c] ++ l3) in M.
  rewrite !code_chunks_app in M.
  rewrite (code_chunks_one p Cp Np), (code_chunks_one c Cc Nc) in M.
  apply StrFacts.embeds_two in M as (A & B & C & M).
  exists (A ++ u)%string, (v ++ B)%string, C.
  unfold article_text. rewrite M, T.
  now rewrite !StrFacts.sapp_assoc.
Qed.

Lemma nested_list_bullet_twice (main_content p c li : node) :
  In p (find_all content_tags main_content) ->
  In c (find_all content_tags p) ->
  is_list p = true -> is_list c = true ->
  In li (find_all ["li"] c) ->
  exists a b d,
    format_main main_content
    = a ++ FBullet (get_text_strip li) :: b
        ++ FBullet (get_text_strip li) :: d.
Proof.
  intros Hp Hc Lp Lc Hli.
  destruct (stream_nested _ _ _ Hp Hc) as (l1 & l2 & l3 & E).
  assert (Hli' : In li (find_all ["li"] p))
    by (eapply DomFacts.find_all_trans; eassumption).
  assert (B : forall e, In li (find_all ["li"] e) ->
              exists b1 b2, bullets e = b1 ++ FBullet (get_text_strip li) :: b2).
  { intros e He. apply in_split. unfold bullets.
    apply (in_map (fun x => FBullet (get_text_strip x))). exact He. }
  destruct (B p Hli') as (p1 & p2 & Bp). destruct (B c Hli) as (c1 & c2 & Bc).
  unfold format_main, format_elements. rewrite E.
  rewrite run_app, run_cons, run_app, run_cons.
  destruct (flush_extends
              (run (step (run (step (run initial l1) p) l2) c) l3)) as [d4 ->].
  destruct (run_extends l3 (step (run (step (run initial l1) p) l2) c))
    as [d3 ->].
  destruct (step_list (run (step (run initial l1) p) l2) c Lc) as [dc ->].
  destruct (run_extends l2 (step (run initial l1) p)) as [d2 ->].
  destruct (step_list (run initial l1) p Lp) as [dp ->].
  rewrite Bp, Bc.
  exists (markdown_content (run initial l1) ++ dp ++ FListOpen :: p1),
    (p2 ++ d2 ++ dc ++ FListOpen :: c1), (c2 ++ d3 ++ d4).
  reassoc.
Qed.

(** C9 (as amended): the stream lists an element nested in another
    enumerated element again, after that ancestor.  When both are
    code-bearing and the inner text is not blank, the inner text reaches the
    output twice (once within the ancestor's text, once on its own); when both
    are lists, every item of the inner list gets a bullet line from the outer
    list and another from the inner one. *)
Theorem nested_elements_are_dispatched_again (main_content p c : node) :
  In p (find_all content_tags main_content) ->
  In c (find_all content_tags p) ->
  (exists l1 l2 l3,
      find_all content_tags main_content = l1 ++ p :: l2 ++ c :: l3)
  /\ (is_code p = true -> is_code c = true ->
      nonblank (get_text c) = true ->
      occurs_twice (get_text c) (article_text main_content))
  /\ (is_list p = true -> is_list c = true ->
      forall li, In li (find_all ["li"] c) ->
      exists a b d,
        format_main main_content
        = a ++ FBullet (get_text_strip li) :: b
            ++ FBullet (get_text_strip li) :: d).
Proof.
  intros Hp Hc. split; [ | split ].
  - now apply stream_nested.
  - intros Cp Cc Nc. now apply nested_code_text_twice with p.
  - intros Lp Lc li Hli. now apply nested_list_bullet_twice with p c.
Qed.

(** An instance: a [code] inside a [pre]; the nested list is shown beside it. *)
Lemma nested_elements_are_dispatched_again_witness :
  occurs_twice "x" (article_text code_in_pre_article)
  /\ format_main code_in_pre_article = [FFence None ["x"; "x"]]
  /\ format_main nested_list_article
     = [FListOpen; FBullet "ab"; FBullet "b"; FListOpen; FBullet "b"].
Proof.
  split; [ | split; reflexivity ].
  destruct (nested_elements_are_dispatched_again code_in_pre_article
              (Tag "pre" no_attrs [text_tag "code" None "x"])
              (text_tag "code" None "x")) as (_ & H & _).
  - left. reflexivity.
  - left. reflexivity.
  - apply H; reflexivity.
Defined.

(** C9 (as stated) fails: a code-bearing element inside a plain [div] is
    nested in an enumerated element, yet its text reaches the output once. *)
Lemma code_in_plain_div_appears_once :
  find_all content_tags code_in_div_article
  = [Tag "div" no_attrs [text_tag "pre" None "x"]; text_tag "pre" None "x"]
  /\ is_code (text_tag "pre" None "x") = true
  /\ format_main code_in_div_article = [FFence None ["x"]]
  /\ article_text code_in_div_article
     = (nl ++ "```" ++ nl ++ "x" ++ nl ++ "```" ++ nl)%string
  /\ ~ occurs_twice "x" (article_text code_in_div_article).
Proof.
  repeat split.
  intros (A & B & C & E).
  assert (N : "x" <> EmptyString) by discriminate.
  pose proof (StrFacts.occurrences_twice "x" A B C N) as O.
  rewrite <- E in O. vm_compute in O. lia.
Qed.

End NestingFacts.

(** ** Section Locator: the order of the heuristics *)

Module LocatorFacts.
Import Locator LocatorTerms.

Lemma first_some_none {A B : Type} (f : A -> option B) (l : list A) :
  (forall x, In x l -> f x = None) -> first_some f l = None.
Proof.
  induction l as [| x l IH]; intros H; simpl; [ reflexivity | ].
  rewrite (H x) by now left. apply IH. intros y Hy. apply H. now right.
Qed.

Lemma first_some_app {A B : Type} (f : A -> option B) (l1 l2 : list A) :
  first_some f (l1 ++ l2)
  = match first_some f l1 with
    | Some y => Some y
    | None => first_some f l2
    end.
Proof.
  induction l1 as [| x l1 IH]; simpl; [ reflexivity | ].
  now destruct (f x).
Qed.

Lemma first_some_hit {A B : Type} (f : A -> option B)
  (l1 l2 : list A) (x : A) (y : B) :
  (forall z, In z l1 -> f z = None) -> f x = Some y ->
  first_some f (l1 ++ x :: l2) = Some y.
Proof.
  intros H1 Hx. rewrite first_some_app, (first_some_none f l1 H1).
  simpl. now rewrite Hx.
Qed.

Lemma existsb_first {A : Type} (q : A -> bool) (l : list A) :
  existsb q l = true ->
  exists l1 x l2,
    l = l1 ++ x :: l2 /\ (forall z, In z l1 -> q z = false) /\ q x = true.
Proof.
  induction l as [| a l IH]; simpl; [ discriminate | ].
  destruct (q a) eqn:Q; simpl.
  - intros _. exists [], a, l. repeat split; auto. intros z [].
  - intros H. destruct (IH H) as (l1 & x & l2 & -> & H1 & Hx).
    exists (a :: l1), x, l2. repeat split; auto.
    intros z [<- | Hz]; auto.
Qed.

Lemma existsb_false {A : Type} (q : A -> bool) (l : list A) (x : A) :
  existsb q l = false -> In x l -> q x = false.
Proof.
  intros H Hx. destruct (q x) eqn:Q; [ | reflexivity ].
  assert (E : existsb q l = true) by (apply existsb_exists; eauto).
  congruence.
Qed.

Lemma try_header_qualifies (hp : element * element) :
  try_header 3 hp = if qualifies hp then Some (snd hp) else None.
Proof.
  unfold try_header, qualifies. now destruct (find_next ["ul"] (fst hp)).
Qed.

(** The header pattern scans all [h2], then all [h3]. *)
Lemma header_pattern_scan (soup : element) :
  try_pattern soup (Headers ["h2"; "h3"] 3)
  = first_some (try_header 3) (headers_in_scan_order soup).
Proof.
  unfold headers_in_scan_order. rewrite first_some_app. simpl.
  now destruct (first_some (try_header 3) (find_all_el ["h2"] soup));
    [ | destruct (first_some (try_header 3) (find_all_el ["h3"] soup)) ].
Qed.

(** The nodes of [below] are the descendants. *)
Lemma children_below_nodes
  (rec : node -> list node -> list (element * element))
  (par : element) (after : list node) (ks : list node) :
  Forall (fun k => forall a,
            map (fun p => el_node (fst p)) (rec k a) = descendants k) ks ->
  map (fun p => el_node (fst p)) (children_below rec par after ks)
  = preorder ks.
Proof.
  induction 1 as [| k ks Hk _ IH]; [ reflexivity | ].
  simpl. rewrite map_app, Hk, IH. reflexivity.
Qed.

Lemma below_nodes (n : node) : forall after,
  map (fun p => el_node (fst p)) (below n after) = descendants n.
Proof.
  induction n as [s | nm a ks IH] using node_induction; intros after;
    [ reflexivity | ].
  simpl. now apply children_below_nodes.
Qed.

Lemma find_all_el_node (names : list string) (soup : element)
  (p : element * element) :
  In p (find_all_el names soup) ->
  In (el_node (fst p)) (descendants (el_node soup))
  /\ has_name names (el_node (fst p)) = true.
Proof.
  unfold find_all_el. intros H. apply filter_In in H as [H Hn].
  split; [ | exact Hn ].
  rewrite <- (below_nodes (el_node soup) (el_after soup)).
  apply (in_map (fun p => el_node (fst p))). exact H.
Qed.

Lemma find_all_el_widen (nm : string) (names : list string) (soup : element)
  (p : element * element) :
  PyStr.mem nm names = true ->
  In p (find_all_el [nm] soup) -> In p (find_all_el names soup).
Proof.
  intros Hm. unfold find_all_el. rewrite !filter_In. intros [H Hn].
  split; [ exact H | ].
  unfold has_name in *. destruct (node_name (el_node (fst p))) as [x |];
    [ | discriminate ].
  simpl in Hn. rewrite orb_false_r in Hn.
  apply String.eqb_eq in Hn. now subst.
Qed.

(** *** Sample topic pages *)

(** *** The claims on the Locator *)

Lemma header_scan_none (soup : element) :
  header_led soup = false ->
  first_some (try_header 3) (headers_in_scan_order soup) = None.
Proof.
  intros H. apply first_some_none. intros hp Hin.
  rewrite try_header_qualifies.
  assert (Hw : In hp (find_all_el ["h2"; "h3"] soup)).
  { unfold headers_in_scan_order in Hin.
    apply in_app_or in Hin as [Hin | Hin];
      (eapply find_all_el_widen; [ | exact Hin ]); reflexivity. }
  unfold header_led in H. now rewrite (existsb_false _ _ hp H Hw).
Qed.

Lemma list_scan_none (soup : element) :
  dense_list soup = false ->
  first_some (try_list 5) (find_all_el ["ul"] soup) = None.
Proof.
  intros H. apply first_some_none. intros up Hin.
  unfold try_list. unfold dense_list in H.
  now rewrite (existsb_false _ _ up H Hin).
Qed.

Lemma hd_error_in {A : Type} (l : list A) (x : A) :
  hd_error l = Some x -> In x l.
Proof. destruct l; simpl; [ discriminate | ]. intros [= ->]. now left. Qed.

Lemma container_scan_none (soup : element) (class_name : string) :
  known_container soup = false -> PyStr.mem class_name known_classes = true ->
  try_container soup class_name = None.
Proof.
  intros H Hk. unfold try_container.
  destruct (find_div_class_el class_name soup) as [container |] eqn:E;
    [ | reflexivity ].
  unfold find_div_class_el in E. apply hd_error_in in E.
  apply filter_In in E as [Hin Hc].
  apply in_map_iff in Hin as (p & <- & Hp).
  apply find_all_el_node in Hp as [Hd _].
  assert (Hcls : has_class_in known_classes (el_node (fst p)) = true).
  { unfold has_class_in. apply existsb_exists.
    unfold PyStr.mem in Hc at 1. apply existsb_exists in Hc as (c & Hc & Heq).
    apply String.eqb_eq in Heq. subst c. eauto. }
  unfold known_container in H.
  pose proof (existsb_false _ _ _ H Hd) as N. simpl in N.
  rewrite Hcls in N. simpl in N.
  now destruct (find_all ["a"] (el_node (fst p))).
Qed.

(** The topic page of three links under one heading: the heading's parent,
    here the document itself, is returned. *)
Example three_links_under_h2 :
  find_topic_section (document [heading "h2" "Intro"; three_links])
  = Some (document [heading "h2" "Intro"; three_links]).
Proof. reflexivity. Qed.

(** C4: a document that matches none of the three heuristics (no level-2/3
    heading whose following [ul] holds three links, no [ul] with five links,
    no element of a known container class that holds a link) makes the
    Locator return the absent result; the Locator is a total function, so
    nothing is raised. *)
Theorem no_heuristic_gives_absent (soup : element) :
  header_led soup = false -> dense_list soup = false ->
  known_container soup = false ->
  find_topic_section soup = None.
Proof.
  intros Hh Hl Hc. unfold find_topic_section, patterns.
  cbn [first_some].
  rewrite header_pattern_scan, (header_scan_none soup Hh).
  cbn [try_pattern]. rewrite (list_scan_none soup Hl).
  rewrite first_some_none; [ reflexivity | ].
  intros class_name Hin. apply container_scan_none; [ exact Hc | ].
  unfold PyStr.mem. apply existsb_exists. exists class_name.
  split; [ exact Hin | apply String.eqb_refl ].
Qed.

(** An instance: a heading over a list of two links. *)
Lemma no_heuristic_gives_absent_witness :
  find_topic_section sparse_page = None.
Proof.
  apply no_heuristic_gives_absent; reflexivity.
Defined.

(** C3 (as amended): when some level-2 or level-3 heading is followed by a
    [ul] that holds at least three links, the Locator returns the parent of
    such a heading, whatever the other two heuristics would match; the
    heading that decides is the first qualifying one in the order all [h2]
    in document order, then all [h3] in document order. *)
Theorem header_led_takes_priority (soup : element) :
  header_led soup = true ->
  exists l1 hp l2,
    headers_in_scan_order soup = l1 ++ hp :: l2
    /\ (forall z, In z l1 -> qualifies z = false)
    /\ qualifies hp = true
    /\ find_topic_section soup = Some (snd hp).
Proof.
  intros H.
  assert (E : existsb qualifies (headers_in_scan_order soup) = true).
  { unfold header_led in H. apply existsb_exists in H as (hp & Hin & Hq).
    apply existsb_exists. exists hp. split; [ | exact Hq ].
    unfold headers_in_scan_order. apply in_or_app.
    pose proof Hin as Hn. apply find_all_el_node in Hn as [_ Hn].
    unfold find_all_el in *. rewrite !filter_In.
    apply filter_In in Hin as [Hin _].
    unfold has_name in *.
    destruct (node_name (el_node (fst hp))) as [nm |]; [ | discriminate ].
    simpl in *.
    destruct (String.eqb nm "h2"); [ left | right ]; split; auto. }
  destruct (existsb_first qualifies _ E) as (l1 & hp & l2 & Es & Hl1 & Hq).
  exists l1, hp, l2. repeat split; auto.
  unfold find_topic_section, patterns. cbn [first_some].
  rewrite header_pattern_scan, Es.
  rewrite (first_some_hit (try_header 3) l1 l2 hp (snd hp)); auto.
  - intros z Hz. rewrite try_header_qualifies. now rewrite (Hl1 z Hz).
  - rewrite try_header_qualifies. now rewrite Hq.
Qed.

(** An instance: the page with a qualifying [h3] ahead of a qualifying [h2]. *)
Lemma header_led_takes_priority_witness :
  exists l1 hp l2,
    headers_in_scan_order h3_before_h2_page = l1 ++ hp :: l2
    /\ (forall z, In z l1 -> qualifies z = false)
    /\ qualifies hp = true
    /\ find_topic_section h3_before_h2_page = Some (snd hp).
Proof.
  apply header_led_takes_priority. reflexivity.
Defined.

(** C3 (as stated) fails: with a qualifying [h3] ahead of a qualifying [h2]
    in the document, the Locator returns the parent of the [h2], not that of
    the heading that comes first in document order. *)
Lemma h2_is_scanned_before_h3 :
  option_map el_node (first_in_document_order h3_before_h2_page)
  = Some h3_block
  /\ option_map el_node (find_topic_section h3_before_h2_page)
     = Some h2_block
  /\ h3_block <> h2_block.
Proof.
  split; [ reflexivity | split; [ reflexivity | discriminate ] ].
Qed.

End LocatorFacts.

(** ** The orchestrator and the article extraction *)

Module ScraperFacts.
Import ScraperTerms.

Section WithCollaborators.

Variable parse : string -> node.
Variable World : Type.
Variable fetch_page : string -> World -> option string * World.
Variable urljoin : string -> string -> string.

Local Abbreviation items := (scrape_items parse World fetch_page urljoin).
Local Abbreviation sections :=
  (scrape_sections parse World fetch_page urljoin).

(** One pass of the item loop over an item with a usable link. *)
Lemma scrape_items_link (li link : node) (href : string) (rest : list node)
  (w : World) (md : list string) :
  find ["a"] li = Some link -> a_href (node_attrs link) = Some href ->
  PyStr.truthy href = true ->
  items (li :: rest) w md
  = items rest (snd (fetch_page (urljoin base_url href) w))
      (md ++ [sub_heading (get_text_strip link)]
          ++ article_fragments parse
               (fst (fetch_page (urljoin base_url href) w))
          ++ [separator]).
Proof.
  intros Hl Hh Ht. simpl. rewrite Hl, Hh, Ht.
  destruct (fetch_page (urljoin base_url href) w) as [page_html w1].
  simpl. f_equal. unfold article_fragments, sub_heading, separator.
  destruct page_html as [h |]; [ destruct (PyStr.truthy h);
    [ destruct (extract_article_content parse h) | ] | ];
    simpl; rewrite <- ?app_assoc; reflexivity.
Qed.

(** The item loop only appends, and what it appends does not depend on
    what was collected before. *)
Lemma scrape_items_appends (lis : list node) : forall w md,
  items lis w md = (md ++ fst (items lis w []), snd (items lis w [])).
Proof.
  induction lis as [| li rest IH]; intros w md.
  - simpl. now rewrite app_nil_r.
  - destruct (find ["a"] li) as [link |] eqn:Hl.
    + destruct (a_href (node_attrs link)) as [href |] eqn:Hh.
      * destruct (PyStr.truthy href) eqn:Ht.
        -- rewrite !(scrape_items_link li link href rest _ _ Hl Hh Ht).
           rewrite IH. rewrite (IH _ ([] ++ _)). simpl.
           f_equal. reassoc.
        -- simpl. rewrite Hl, Hh, Ht. apply IH.
      * simpl. rewrite Hl, Hh. apply IH.
    + simpl. rewrite Hl. apply IH.
Qed.

(** One pass of the section loop. *)
Lemma scrape_sections_cons (header : element) (rest : list element)
  (w : World) (md : list string) :
  sections (header :: rest) w md
  = if negb (PyStr.truthy (get_text_strip (el_node header)))
       || (String.length (get_text_strip (el_node header)) <? 2)%nat
    then sections rest w md
    else
      match find_next ["ul"] header with
      | Some ul =>
          sections rest
            (snd (items (find_all ["li"] ul) w
                    (md ++ [section_heading
                              (get_text_strip (el_node header))])))
            (fst (items (find_all ["li"] ul) w
                    (md ++ [section_heading
                              (get_text_strip (el_node header))])))
      | None =>
          sections rest w
            (md ++ [section_heading (get_text_strip (el_node header))])
      end.
Proof.
  unfold section_heading. cbn [scrape_sections].
  destruct (negb (PyStr.truthy (get_text_strip (el_node header)))
            || (String.length (get_text_strip (el_node header)) <? 2)%nat);
    [ reflexivity | ].
  destruct (find_next ["ul"] header) as [ul |]; [ | reflexivity ].
  now destruct (scrape_items _ _ _ _ _ _ _).
Qed.

(** The section loop only appends as well. *)
Lemma scrape_sections_appends (headers : list element) : forall w md,
  sections headers w md
  = (md ++ fst (sections headers w []), snd (sections headers w [])).
Proof.
  induction headers as [| header rest IH]; intros w md.
  - simpl. now rewrite app_nil_r.
  - rewrite !scrape_sections_cons.
    destruct (negb (PyStr.truthy (get_text_strip (el_node header)))
              || (String.length (get_text_strip (el_node header)) <? 2)%nat).
    + apply IH.
    + destruct (find_next ["ul"] header) as [ul |].
      * rewrite (scrape_items_appends (find_all ["li"] ul) w (md ++ _)).
        rewrite (scrape_items_appends (find_all ["li"] ul) w ([] ++ _)).
        cbn [fst snd]. rewrite IH. rewrite (IH _ (([] ++ _) ++ _)).
        cbn [fst snd]. f_equal. reassoc.
      * rewrite IH. rewrite (IH _ ([] ++ _)). cbn [fst snd].
        f_equal. reassoc.
Qed.

Lemma scrape_items_app (l1 l2 : list node) : forall w md,
  items (l1 ++ l2) w md
  = items l2 (snd (items l1 w md)) (fst (items l1 w md)).
Proof.
  induction l1 as [| li l1 IH]; intros w md; [ reflexivity | ].
  simpl.
  destruct (find ["a"] li) as [link |]; [ | apply IH ].
  destruct (a_href (node_attrs link)) as [href |]; [ | apply IH ].
  destruct (PyStr.truthy href); [ | apply IH ].
  destruct (fetch_page (urljoin base_url href) w) as [page_html w1].
  apply IH.
Qed.

(** When [fetch_page] returns the absent result for an article, its item
    still contributes its level-3 sub-heading, followed by the separator
    alone; the loop goes on with the remaining items from the world that fetch
    left, and the section loop goes on with the later sections after them. *)
Theorem failed_article_fetch_is_skipped
  (li link : node) (href : string) (rest : list node) (w w1 : World) :
  find ["a"] li = Some link -> a_href (node_attrs link) = Some href ->
  PyStr.truthy href = true ->
  fetch_page (urljoin base_url href) w = (None, w1) ->
  (forall md,
      scrape_items parse World fetch_page urljoin (li :: rest) w md
      = (md ++ [sub_heading (get_text_strip link); separator]
            ++ fst (scrape_items parse World fetch_page urljoin rest w1 []),
         snd (scrape_items parse World fetch_page urljoin rest w1 [])))
  /\ (forall header later ul before w0 md,
        (negb (PyStr.truthy (get_text_strip (el_node header)))
         || (String.length (get_text_strip (el_node header)) <? 2)%nat)
        = false ->
        find_next ["ul"] header = Some ul ->
        find_all ["li"] ul = before ++ li :: rest ->
        snd (scrape_items parse World fetch_page urljoin before w0 []) = w ->
        scrape_sections parse World fetch_page urljoin
          (header :: later) w0 md
        = (md ++ [section_heading (get_text_strip (el_node header))]
              ++ fst (scrape_items parse World fetch_page urljoin
                        before w0 [])
              ++ [sub_heading (get_text_strip link); separator]
              ++ fst (scrape_items parse World fetch_page urljoin rest w1 [])
              ++ fst (scrape_sections parse World fetch_page urljoin later
                        (snd (scrape_items parse World fetch_page urljoin
                                rest w1 [])) []),
           snd (scrape_sections parse World fetch_page urljoin later
                  (snd (scrape_items parse World fetch_page urljoin
                          rest w1 [])) []))).
Proof.
  intros Hl Hh Ht Hf.
  assert (Item : forall md,
             items (li :: rest) w md
             = (md ++ [sub_heading (get_text_strip link); separator]
                   ++ fst (items rest w1 []),
                snd (items rest w1 []))).
  { intros md. rewrite (scrape_items_link li link href rest w md Hl Hh Ht).
    rewrite Hf. cbn [fst snd article_fragments].
    rewrite scrape_items_appends. f_equal. reassoc. }
  split; [ exact Item | ].
  intros header later ul before w0 md Htitle Hul Hlis Hw.
  rewrite scrape_sections_cons, Htitle, Hul, Hlis.
  rewrite scrape_items_app.
  rewrite (scrape_items_appends before w0 (md ++ _)). cbn [fst snd].
  rewrite Hw, Item. cbn [fst snd].
  rewrite scrape_sections_appends. f_equal. reassoc.
Qed.

(** C6 (as amended): whenever the orchestrator yields a document, its first
    fragment is the level-1 title line; the title is the stripped text of the
    first [h1] of the topic page, and ["GeeksForGeeks Guide"] when the page
    has no [h1]. *)
Theorem page_title_leads_the_document
  (url : string) (w w' : World) (md : list string) :
  scrape_from_url parse World fetch_page urljoin url w = (Some md, w') ->
  exists html rest,
    fst (fetch_page url w) = Some html
    /\ md = ("# " ++ page_title (parse html) ++ Formatter.nl)%string :: rest
    /\ page_title (parse html)
       = match find ["h1"] (parse html) with
         | Some h1 => get_text_strip h1
         | None => "GeeksForGeeks Guide"
         end.
Proof.
  unfold scrape_from_url.
  destruct (fetch_page url w) as [[html |] w1]; [ | discriminate ].
  destruct (negb (PyStr.truthy html)); [ discriminate | ].
  cbn [el_node].
  destruct (Locator.find_topic_section (mkElement (parse html) []))
    as [topic_section |]; [ | discriminate ].
  rewrite scrape_sections_appends. intros [= <- _].
  exists html. eexists. split; [ reflexivity | ].
  split; reflexivity.
Qed.

(** C10: the extraction of a non-empty markup always yields a record: its
    title is the stripped text of the first [h1] (empty without one) and its
    content is empty when the document has neither an [article] nor a [div]
    of a known class; the absent result is returned exactly for the empty
    markup. *)
Theorem extract_article_content_result (html : string) :
  (extract_article_content parse html = None <-> html = EmptyString)
  /\ (html <> EmptyString ->
      exists c,
        extract_article_content parse html
        = Some (mkArticle
                  match find ["h1"] (parse html) with
                  | Some h1 => get_text_strip h1
                  | None => EmptyString
                  end c)
        /\ (find ["article"] (parse html) = None ->
            find_div_class
              ["post-content"; "entry-content"; "article-content"]
              (parse html) = None ->
            c = EmptyString)).
Proof.
  unfold extract_article_content. destruct html as [| ch html].
  - split; [ now split | ]. intros H. now elim H.
  - cbn [PyStr.truthy PyStr.is_empty negb]. split.
    + split; discriminate.
    + intros _. eexists. split; [ reflexivity | ].
      intros Ha Hd. unfold main_container. now rewrite Ha, Hd.
Qed.

End WithCollaborators.

(** *** The sample topic page, scraped *)

(** An instance: the network that serves the topic page only; every article
    of the sample page is left with its sub-heading and the separator. *)
Lemma failed_article_fetch_is_skipped_witness :
  scrape_items sample_parse unit topic_only sample_urljoin
    [item_x; item_y] tt []
  = ([sub_heading "X"; separator; sub_heading "Y"; separator], tt)
  /\ fst (scrape_from_url sample_parse unit topic_only sample_urljoin
            "topic" tt)
     = Some [("# GeeksForGeeks Guide" ++ Formatter.nl)%string;
             section_heading "Intro";
             sub_heading "X"; separator;
             sub_heading "Y"; separator;
             sub_heading "Z"; separator].
Proof.
  split; [ | reflexivity ].
  destruct (failed_article_fetch_is_skipped sample_parse unit topic_only
              sample_urljoin item_x (LocatorTerms.link "/x" "X") "/x"
              [item_y] tt tt eq_refl eq_refl eq_refl eq_refl) as [H _].
  rewrite H. reflexivity.
Defined.

(** An instance: the sample page, which has no [h1]. *)
Lemma page_title_leads_the_document_witness :
  exists html rest,
    fst (always_up "topic" tt) = Some html
    /\ sample_document
       = ("# " ++ page_title (sample_parse html) ++ Formatter.nl)%string
         :: rest
    /\ page_title (sample_parse html)
       = match find ["h1"] (sample_parse html) with
         | Some h1 => get_text_strip h1
         | None => "GeeksForGeeks Guide"
         end.
Proof.
  apply (page_title_leads_the_document sample_parse unit always_up
           sample_urljoin "topic" tt tt sample_document).
  reflexivity.
Defined.

(** C6 (as stated) fails: for a topic page without [h1] the title line
    reads "GeeksForGeeks Guide", not "Untitled". *)
Lemma default_title_is_not_untitled :
  find ["h1"] untitled_page = None
  /\ hd_error sample_document
     = Some ("# GeeksForGeeks Guide" ++ Formatter.nl)%string
  /\ hd_error sample_document <> Some ("# Untitled" ++ Formatter.nl)%string.
Proof.
  split; [ reflexivity | split; [ reflexivity | discriminate ] ].
Qed.

(** An instance: a markup whose document has neither [h1] nor container. *)
Lemma extract_article_content_result_witness :
  extract_article_content sample_parse "<html>"
  = Some (mkArticle EmptyString EmptyString).
Proof.
  destruct (extract_article_content_result sample_parse "<html>") as [_ H].
  destruct H as (c & E & Hc); [ discriminate | ].
  rewrite E, (Hc eq_refl eq_refl). reflexivity.
Defined.

End ScraperFacts.

(** ** Output file naming *)

Module NamingFacts.
Import PyStr NamingTerms.

Local Abbreviation slash := ("/"%char).

Lemma split_nonempty (c : ascii) (s : string) : split c s <> [].
Proof.
  destruct s as [| x s]; simpl; [ discriminate | ].
  destruct (Ascii.eqb x c); [ discriminate | ].
  destruct (split c s); discriminate.
Qed.

Lemma split_no_slash (s : string) : no_slash s = true -> split slash s = [s].
Proof.
  induction s as [| x s IH]; simpl; [ reflexivity | ].
  destruct (Ascii.eqb x slash); simpl; [ discriminate | ].
  intros H. now rewrite (IH H).
Qed.

Lemma split_app_sep (c : ascii) (a t : string) :
  split c (a ++ String c t) = split c a ++ split c t.
Proof.
  induction a as [| x a IH]; simpl.
  - now rewrite Ascii.eqb_refl.
  - destruct (Ascii.eqb x c); [ now rewrite IH | ].
    rewrite IH. pose proof (split_nonempty c a) as N.
    destruct (split c a); [ now elim N | reflexivity ].
Qed.

Lemma endswith_app (c : ascii) (a t : string) :
  t <> EmptyString -> endswith c (a ++ t) = endswith c t.
Proof.
  intros Ht. induction a as [| x a IH]; [ reflexivity | ].
  simpl. destruct (a ++ t)%string eqn:E; [ | exact IH ].
  destruct a; simpl in E; [ now elim Ht | discriminate ].
Qed.

Lemma endswith_no_slash (s : string) :
  no_slash s = true -> endswith slash s = false.
Proof.
  induction s as [| x s IH]; simpl; [ reflexivity | ].
  destruct (Ascii.eqb x slash) eqn:E; simpl; [ discriminate | ].
  intros H. destruct s; [ reflexivity | now apply IH ].
Qed.

Lemma truthy_nonempty (s : string) : s <> EmptyString -> truthy s = true.
Proof. destruct s; [ intros H; now elim H | reflexivity ]. Qed.

(** The pieces of a URL that ends in [seg] or in [seg/]. *)
Lemma split_tail (pre seg : string) :
  (pre = EmptyString \/ exists b, pre = (b ++ "/")%string) ->
  no_slash seg = true ->
  exists l,
    split slash (pre ++ seg) = l ++ [seg]
    /\ split slash (pre ++ seg ++ "/") = l ++ [seg; EmptyString].
Proof.
  intros Hpre Hseg.
  assert (S1 : split slash (seg ++ "/") = [seg; EmptyString]).
  { change (seg ++ "/")%string with (seg ++ String slash "")%string.
    rewrite split_app_sep, (split_no_slash seg Hseg). reflexivity. }
  destruct Hpre as [-> | [b ->]].
  - exists []. simpl. split; [ now apply split_no_slash | exact S1 ].
  - exists (split slash b).
    rewrite !StrFacts.sapp_assoc.
    change ("/" ++ seg)%string with (String slash seg).
    change ("/" ++ seg ++ "/")%string with (String slash (seg ++ "/")).
    rewrite !split_app_sep, (split_no_slash seg Hseg). now split.
Qed.

Lemma endswith_inv (c : ascii) (s : string) :
  endswith c s = true -> exists a, s = (a ++ String c "")%string.
Proof.
  induction s as [| x s IH]; simpl; [ discriminate | ].
  destruct s as [| y s].
  - intros H. apply Ascii.eqb_eq in H. subst x. now exists EmptyString.
  - intros H. destruct (IH H) as [a ->]. now exists (String x a).
Qed.

(** Neither index of [main] is ever out of range: a file name is always
    produced. *)
Lemma output_filename_total (url : string) :
  exists f, output_filename url = Some f.
Proof.
  unfold output_filename, index_from_end.
  destruct (endswith slash url) eqn:E.
  - destruct (endswith_inv slash url E) as [a ->].
    rewrite split_app_sep, rev_app_distr. simpl.
    pose proof (split_nonempty slash a) as N.
    destruct (rev (split slash a)) as [| x l] eqn:R.
    + apply (f_equal (@rev string)) in R. rewrite rev_involutive in R.
      now elim N.
    + simpl. eauto.
  - pose proof (split_nonempty slash url) as N.
    destruct (rev (split slash url)) as [| x l] eqn:R.
    + apply (f_equal (@rev string)) in R. rewrite rev_involutive in R.
      now elim N.
    + simpl. eauto.
Qed.

(** C8 (as amended): for a URL that ends in a non-empty segment, with or
    without one closing slash, the file name is that segment, the final
    non-empty one of the URL, followed by ".md". *)
Theorem output_filename_is_final_segment (pre seg url : string) :
  (pre = EmptyString \/ exists b, pre = (b ++ "/")%string) ->
  no_slash seg = true -> seg <> EmptyString ->
  (url = (pre ++ seg)%string \/ url = (pre ++ seg ++ "/")%string) ->
  final_nonempty_segment url = Some seg
  /\ output_filename url = Some (seg ++ ".md")%string.
Proof.
  intros Hpre Hseg Hne Hurl.
  destruct (split_tail pre seg Hpre Hseg) as (l & S1 & S2).
  unfold final_nonempty_segment, output_filename, index_from_end.
  destruct Hurl as [-> | ->].
  - rewrite (endswith_app slash pre seg Hne), (endswith_no_slash seg Hseg).
    rewrite S1, rev_app_distr. simpl.
    now rewrite (truthy_nonempty seg Hne).
  - rewrite <- StrFacts.sapp_assoc.
    rewrite (endswith_app slash (pre ++ seg) "/") by discriminate.
    rewrite StrFacts.sapp_assoc, S2, rev_app_distr. simpl.
    now rewrite (truthy_nonempty seg Hne).
Qed.

(** An instance: the first URL listed in [main]. *)
Lemma output_filename_is_final_segment_witness :
  final_nonempty_segment "https://www.geeksforgeeks.org/greedy-algorithms/"
  = Some "greedy-algorithms"
  /\ output_filename "https://www.geeksforgeeks.org/greedy-algorithms/"
     = Some "greedy-algorithms.md".
Proof.
  apply (output_filename_is_final_segment
           "https://www.geeksforgeeks.org/" "greedy-algorithms").
  - right. exists "https://www.geeksforgeeks.org". reflexivity.
  - reflexivity.
  - discriminate.
  - right. reflexivity.
Defined.

(** The claim holds on each of the URLs listed in [main]. *)
Lemma listed_urls_are_named_by_final_segment :
  map output_filename urls
  = map (fun u => option_map (fun f => (f ++ ".md")%string)
                    (final_nonempty_segment u)) urls.
Proof. reflexivity. Qed.

(** C8 (as stated) fails: for a URL that ends in two slashes the name is
    ".md", although the URL has a final non-empty segment. *)
Lemma double_slash_gives_empty_name :
  final_nonempty_segment "https://www.geeksforgeeks.org/greedy-algorithms//"
  = Some "greedy-algorithms"
  /\ output_filename "https://www.geeksforgeeks.org/greedy-algorithms//"
     = Some ".md".
Proof. split; reflexivity. Qed.

End NamingFacts.

(** * Further properties *)

(** ** The Formatter's loop as a whole *)

Module StreamFacts.
Import Formatter FormatterTerms FormatterFacts StreamTerms.

Lemma step_ignored (st : state) (e : node) :
  dispatched e = false -> step st e = st.
Proof.
  intros D. apply orb_false_elim in D as [F C].
  rewrite step_quiet by assumption. now rewrite C.
Qed.

Lemma run_dispatched (es : list node) : forall st,
  run st (filter dispatched es) = run st es.
Proof.
  induction es as [| e es IH]; intros st; [ reflexivity | ].
  simpl filter. rewrite run_cons. destruct (dispatched e) eqn:D.
  - rewrite run_cons. apply IH.
  - rewrite (step_ignored st e D). apply IH.
Qed.

(** X1: elements that no branch of the loop reacts to (a [div] without the
    class [code], or any tag the enumeration does not dispatch) leave the
    output as it is: the fragments of a stream are those of the stream with
    these elements removed. *)
Theorem ignored_elements_are_transparent (es : list node) :
  format_elements es = format_elements (filter dispatched es).
Proof.
  unfold format_elements. now rewrite run_dispatched.
Qed.

Lemma own_fragments_filled (e : node) :
  forallb fence_filled (own_fragments e) = true.
Proof.
  unfold own_fragments.
  destruct (is_heading e); [ reflexivity | ].
  destruct (is_para e).
  - now destruct (PyStr.truthy (get_text_strip e)).
  - simpl. unfold bullets. induction (find_all ["li"] e); simpl; auto.
Qed.

Lemma filled_flush (st : state) :
  forallb nonblank (current_code_block st) = true ->
  forallb fence_filled (markdown_content st) = true ->
  forallb nonblank (current_code_block (flush st)) = true
  /\ forallb fence_filled (markdown_content (flush st)) = true.
Proof.
  intros Hb Ho. unfold flush.
  destruct (in_code_block st && nonempty (current_code_block st)) eqn:E;
    [ | now split ].
  apply andb_prop in E as [_ E]. simpl. split; [ reflexivity | ].
  rewrite forallb_app, Ho. simpl. now rewrite E, Hb.
Qed.

Lemma filled_step (st : state) (e : node) :
  forallb nonblank (current_code_block st) = true ->
  forallb fence_filled (markdown_content st) = true ->
  forallb nonblank (current_code_block (step st e)) = true
  /\ forallb fence_filled (markdown_content (step st e)) = true.
Proof.
  intros Hb Ho. destruct (flushes e) eqn:F.
  - rewrite step_flushing by assumption.
    destruct (filled_flush st Hb Ho) as [Hb' Ho']. simpl.
    split; [ exact Hb' | ].
    now rewrite forallb_app, Ho', own_fragments_filled.
  - destruct (step_quiet_effect st e F) as [-> ->].
    split; [ | exact Ho ].
    rewrite forallb_app, Hb. unfold code_chunks. simpl.
    destruct (is_code e); simpl; [ | reflexivity ].
    destruct (nonblank (get_text e)) eqn:N; simpl; [ | reflexivity ].
    now rewrite N.
Qed.

Lemma filled_run (es : list node) : forall st,
  forallb nonblank (current_code_block st) = true ->
  forallb fence_filled (markdown_content st) = true ->
  forallb nonblank (current_code_block (run st es)) = true
  /\ forallb fence_filled (markdown_content (run st es)) = true.
Proof.
  induction es as [| e es IH]; intros st Hb Ho; [ now split | ].
  rewrite run_cons. destruct (filled_step st e Hb Ho) as [Hb' Ho'].
  now apply IH.
Qed.

(** X2: no fence of the output is empty: every fence holds at least one
    chunk, and every chunk has text that survives trimming. *)
Theorem fences_are_never_blank (es : list node) :
  forallb fence_filled (format_elements es) = true.
Proof.
  unfold format_elements.
  destruct (filled_run es initial eq_refl eq_refl) as [Hb Ho].
  now destruct (filled_flush (run initial es) Hb Ho).
Qed.

(** *** Cutting the stream at a heading, paragraph or list *)

Lemma tight_flush_closed (st : state) :
  wf st -> tight st ->
  in_code_block (flush st) = false /\ current_code_block (flush st) = [].
Proof.
  intros W T. unfold flush, wf, tight in *.
  destruct (in_code_block st) eqn:I; simpl.
  - destruct (current_code_block st) eqn:B; simpl.
    + now elim T.
    + now split.
  - split; [ exact I | ].
    destruct (current_code_block st); [ reflexivity | ].
    discriminate W. discriminate.
Qed.

Lemma tight_step (st : state) (e : node) :
  wf st -> tight st -> code_has_text e = true -> tight (step st e).
Proof.
  intros W T H. destruct (flushes e) eqn:F.
  - rewrite step_flushing by assumption.
    destruct (tight_flush_closed st W T) as [I _].
    intros I'. simpl in I'. congruence.
  - rewrite step_quiet by assumption. unfold code_has_text in H.
    destruct (is_code e); [ | exact T ]. simpl in H.
    unfold push_code, open_block, tight in *. unfold nonblank in H.
    rewrite H. destruct (in_code_block st); simpl; intros _ E;
      now destruct (current_code_block st).
Qed.

Lemma tight_run (es : list node) : forall st,
  wf st -> tight st -> Forall (fun e => code_has_text e = true) es ->
  tight (run st es).
Proof.
  induction es as [| e es IH]; intros st W T H; [ exact T | ].
  inversion H as [| ? ? He Hes]; subst. rewrite run_cons.
  apply IH; [ now apply wf_step | now apply tight_step | exact Hes ].
Qed.

Lemma tight_initial : tight initial.
Proof. intros H. discriminate H. Qed.

(** X3: when every code-bearing element before a heading, paragraph or list
    has text that survives trimming, that element cuts the stream into two
    independent parts: the fragments of the whole are those of the part
    before, the element's own, and those of the part after. *)
Theorem stream_splits_at_flushing_element (a b : list node) (e : node) :
  Forall (fun x => code_has_text x = true) a -> flushes e = true ->
  format_elements (a ++ e :: b)
  = format_elements a ++ own_fragments e ++ format_elements b.
Proof.
  intros Ha F. unfold format_elements at 1.
  rewrite run_app, run_cons, step_flushing by assumption.
  pose proof (wf_run a initial wf_initial) as W.
  pose proof (tight_run a initial wf_initial tight_initial Ha) as T.
  destruct (tight_flush_closed _ W T) as [I B].
  rewrite closed_as_initial by assumption. simpl.
  unfold format_elements at 2. now rewrite <- app_assoc.
Qed.

(** An instance: a filled [pre], a paragraph, then a tagged [pre]. *)
Lemma stream_splits_at_flushing_element_witness :
  format_elements ([pre_plain] ++ para_bye :: [pre_python])
  = format_elements [pre_plain] ++ own_fragments para_bye
      ++ format_elements [pre_python].
Proof.
  apply stream_splits_at_flushing_element.
  - repeat constructor.
  - reflexivity.
Defined.

Lemma alike_flush pre s1 s2 :
  alike pre s1 s2 -> alike pre (flush s1) (flush s2).
Proof.
  intros (W1 & W2 & B & O).
  repeat split; try now apply wf_flush.
  - destruct (flush_pending s1 W1) as [_ ->].
    now destruct (flush_pending s2 W2) as [_ ->].
  - unfold flush, wf in *. rewrite <- B in *.
    destruct (current_code_block s1) eqn:E.
    + now rewrite !andb_false_r.
    + rewrite W1, W2 by discriminate. simpl.
      rewrite !map_app, O. simpl. now rewrite <- app_assoc.
Qed.

Lemma alike_step pre s1 s2 e :
  alike pre s1 s2 -> alike pre (step s1 e) (step s2 e).
Proof.
  intros A. destruct (flushes e) eqn:F.
  - rewrite !step_flushing by assumption.
    apply alike_flush in A. destruct A as (W1 & W2 & B & O).
    repeat split; auto. simpl. rewrite !map_app, O. now rewrite app_assoc.
  - destruct A as (W1 & W2 & B & O).
    repeat split; try now apply wf_step.
    + destruct (step_quiet_effect s1 e F) as [_ ->].
      destruct (step_quiet_effect s2 e F) as [_ ->]. now rewrite B.
    + destruct (step_quiet_effect s1 e F) as [-> _].
      now destruct (step_quiet_effect s2 e F) as [-> _].
Qed.

Lemma alike_run pre es : forall s1 s2,
  alike pre s1 s2 -> alike pre (run s1 es) (run s2 es).
Proof.
  induction es as [| e es IH]; intros s1 s2 A; [ exact A | ].
  rewrite !run_cons. now apply IH, alike_step.
Qed.

Lemma untag_own (e : node) : map untag (own_fragments e) = own_fragments e.
Proof.
  unfold own_fragments.
  destruct (is_heading e); [ reflexivity | ].
  destruct (is_para e).
  - now destruct (PyStr.truthy (get_text_strip e)).
  - simpl. f_equal. unfold bullets.
    induction (find_all ["li"] e); simpl; [ reflexivity | now f_equal ].
Qed.

(** X4: whatever the texts of the code-bearing elements, a heading,
    paragraph or list cuts the stream into independent parts as far as
    everything but the language tags of the fences is concerned. *)
Theorem layout_splits_at_flushing_element (a b : list node) (e : node) :
  flushes e = true ->
  map untag (format_elements (a ++ e :: b))
  = map untag (format_elements a) ++ own_fragments e
      ++ map untag (format_elements b).
Proof.
  intros F. unfold format_elements at 1.
  rewrite run_app, run_cons, step_flushing by assumption.
  set (X := emit_all (own_fragments e) (flush (run initial a))).
  assert (A : alike (map untag (markdown_content X)) X initial).
  { pose proof (wf_flush _ (wf_run a initial wf_initial)) as W.
    repeat split.
    - exact W.
    - exact wf_initial.
    - unfold X. simpl.
      now destruct (flush_pending _ (wf_run a initial wf_initial)) as [_ ->].
    - simpl. now rewrite app_nil_r. }
  apply (alike_run _ b), alike_flush in A. destruct A as (_ & _ & _ & ->).
  unfold X, format_elements. simpl.
  now rewrite map_app, untag_own, <- app_assoc.
Qed.

(** An instance: a blank tagged [pre], a paragraph, then a filled [pre]. *)
Lemma layout_splits_at_flushing_element_witness :
  map untag
    (format_elements
       ([text_tag "pre" (Some ["language-x"]) " "] ++ para_bye :: [pre_python]))
  = [FPara "Bye"; FFence None ["print(1)"]].
Proof.
  rewrite layout_splits_at_flushing_element; reflexivity.
Defined.

(** *** Everything but the fences *)

Lemma plain_app (a b : list fragment) : plain (a ++ b) = plain a ++ plain b.
Proof. unfold plain. apply filter_app. Qed.

Lemma plain_own (e : node) : plain (own_fragments e) = own_fragments e.
Proof.
  unfold plain, own_fragments.
  destruct (is_heading e); [ reflexivity | ].
  destruct (is_para e).
  - now destruct (PyStr.truthy (get_text_strip e)).
  - simpl. f_equal. unfold bullets.
    induction (find_all ["li"] e); simpl; [ reflexivity | now f_equal ].
Qed.

Lemma plain_flush (st : state) :
  plain (markdown_content (flush st)) = plain (markdown_content st).
Proof.
  unfold flush.
  destruct (in_code_block st && nonempty (current_code_block st));
    [ | reflexivity ].
  simpl. rewrite plain_app. simpl. now rewrite app_nil_r.
Qed.

Lemma plain_run (es : list node) : forall st,
  plain (markdown_content (run st es))
  = plain (markdown_content st) ++ plain_fragments es.
Proof.
  unfold plain_fragments.
  induction es as [| e es IH]; intros st.
  - simpl. now rewrite app_nil_r.
  - rewrite run_cons, IH. simpl filter. destruct (flushes e) eqn:F.
    + rewrite step_flushing by assumption. simpl.
      rewrite plain_app, plain_flush, plain_own. now rewrite <- app_assoc.
    + now destruct (step_quiet_effect st e F) as [-> _].
Qed.

(** X5: apart from the fences, the output is exactly what the headings,
    paragraphs and lists of the stream append, in the order of the stream:
    one heading line per heading, one paragraph per paragraph whose stripped
    text is not empty, and per list one opening line and one bullet for each
    [li] below it. *)
Theorem plain_output_is_own_fragments (es : list node) :
  plain (format_elements es) = flat_map own_fragments (filter flushes es).
Proof.
  unfold format_elements. rewrite plain_flush, plain_run. reflexivity.
Qed.

Lemma heading_lines_plain (fs : list fragment) :
  filter is_heading_line fs = filter is_heading_line (plain fs).
Proof.
  unfold plain. induction fs as [| f fs IH]; [ reflexivity | ].
  destruct f; simpl; now rewrite IH.
Qed.

Lemma no_heading_line_in_bullets (e : node) :
  filter is_heading_line (bullets e) = [].
Proof.
  unfold bullets. induction (find_all ["li"] e); simpl; auto.
Qed.

(** The heading lines among what one element appends. *)
Lemma own_heading_line (e : node) :
  filter is_heading_line (if flushes e then own_fragments e else [])
  = heading_line e.
Proof.
  destruct e as [s | nm a ks]; [ reflexivity | ].
  unfold flushes, own_fragments, heading_line, is_heading, is_para, is_list,
    has_name, heading_digit. simpl.
  destruct (String.eqb_spec nm "h2") as [-> | N2]; [ reflexivity | ].
  destruct (String.eqb_spec nm "h3") as [-> | N3]; [ reflexivity | ].
  destruct (String.eqb_spec nm "h4") as [-> | N4]; [ reflexivity | ].
  simpl.
  destruct (String.eqb nm "p"); simpl.
  - now destruct (PyStr.truthy (get_text_strip (Tag nm a ks))).
  - destruct (String.eqb nm "ul" || (String.eqb nm "ol" || false));
      [ simpl; apply no_heading_line_in_bullets | reflexivity ].
Qed.

Lemma heading_lines_of_plain_fragments (es : list node) :
  filter is_heading_line (plain_fragments es) = flat_map heading_line es.
Proof.
  unfold plain_fragments. induction es as [| e es IH]; [ reflexivity | ].
  simpl. rewrite <- IH, <- (own_heading_line e).
  destruct (flushes e); simpl; [ now rewrite filter_app | reflexivity ].
Qed.

(** X6: the heading lines of the output are, in the order of the stream,
    one per heading element: an [h2] gives a line of level 3, an [h3] one of
    level 4 and an [h4] one of level 5, each with the stripped text of its
    element; no other element gives a heading line. *)
Theorem headings_move_one_level_down (es : list node) :
  filter is_heading_line (format_elements es) = flat_map heading_line es.
Proof.
  rewrite heading_lines_plain. unfold format_elements.
  rewrite plain_flush, plain_run. simpl.
  apply heading_lines_of_plain_fragments.
Qed.

(** *** Where the language of a fence comes from *)

Lemma tag_from_more (es es' : list node) (f : fragment) :
  tag_from es f -> tag_from (es ++ es') f.
Proof.
  destruct f; simpl; auto.
  intros (e & He & H). exists e. split; [ | exact H ].
  apply in_or_app. now left.
Qed.

Lemma own_fragments_tag_from (seen : list node) (e : node) :
  Forall (tag_from seen) (own_fragments e).
Proof.
  unfold own_fragments.
  destruct (is_heading e); [ repeat constructor | ].
  destruct (is_para e).
  - destruct (PyStr.truthy (get_text_strip e)); repeat constructor.
  - constructor; [ exact I | ]. unfold bullets.
    induction (find_all ["li"] e); simpl; constructor; auto. exact I.
Qed.

Lemma traced_flush (seen : list node) (st : state) :
  tags_traced seen st -> tags_traced seen (flush st).
Proof.
  intros [Hl Ho]. unfold flush.
  destruct (in_code_block st && nonempty (current_code_block st)) eqn:E;
    [ | now split ].
  apply andb_prop in E as [E _]. split; [ discriminate | ].
  simpl. apply Forall_app. split; [ exact Ho | ].
  constructor; [ exact (Hl E) | constructor ].
Qed.

Lemma traced_step (seen : list node) (st : state) (e : node) :
  tags_traced seen st -> tags_traced (seen ++ [e]) (step st e).
Proof.
  intros T. assert (T' : tags_traced (seen ++ [e]) st).
  { destruct T as [Hl Ho]. split.
    - intros I. exact (tag_from_more seen [e] _ (Hl I)).
    - eapply Forall_impl; [ | exact Ho ]. intros f. apply tag_from_more. }
  clear T. destruct (flushes e) eqn:F.
  - rewrite step_flushing by assumption.
    apply traced_flush in T'. destruct T' as [Hl Ho].
    split; [ exact Hl | ]. simpl. apply Forall_app.
    split; [ exact Ho | apply own_fragments_tag_from ].
  - rewrite step_quiet by assumption.
    destruct (is_code e) eqn:C; [ | exact T' ].
    destruct T' as [Hl Ho]. unfold push_code, open_block.
    destruct (in_code_block st) eqn:I.
    + destruct (PyStr.truthy (PyStr.strip (get_text e)));
        (split; [ | exact Ho ]); intros _; exact (Hl eq_refl).
    + destruct (PyStr.truthy (PyStr.strip (get_text e)));
        (split; [ | exact Ho ]); intros _; exists e;
        (split; [ apply in_or_app; right; now left | now split ]).
Qed.

Lemma traced_run (es : list node) : forall seen st,
  tags_traced seen st -> tags_traced (seen ++ es) (run st es).
Proof.
  induction es as [| e es IH]; intros seen st T.
  - now rewrite app_nil_r.
  - rewrite run_cons.
    replace (seen ++ e :: es) with ((seen ++ [e]) ++ es)
      by now rewrite <- app_assoc.
    now apply IH, traced_step.
Qed.

(** X7: the language tag of a fence is never made up: it is what the
    language detection gives on some code-bearing element of the stream (no
    tag when that element has no language class). *)
Theorem fence_tags_come_from_the_stream (es : list node) :
  Forall (tag_from es) (format_elements es).
Proof.
  unfold format_elements.
  assert (T : tags_traced [] initial).
  { split; [ discriminate | constructor ]. }
  apply (traced_run es), traced_flush in T. exact (proj2 T).
Qed.

(** *** A block left open by blank code *)




End StreamFacts.

(** ** Language detection *)

Module LanguageFacts.
Import PyStr Formatter.

Lemma remove_skip (pat : string) (s1 : string) : forall x,
  remove_from pat (String.length s1) (s1 ++ x) = remove_from pat 0 x.
Proof.
  induction s1 as [| c s1 IH]; intros x; [ reflexivity | ].
  simpl. apply IH.
Qed.

Lemma remove_clean (pat x : string) :
  contains pat x = false -> remove_all pat x = x.
Proof.
  unfold remove_all. induction x as [| c x IH]; [ reflexivity | ].
  intros H.
  change (String.prefix pat (String c x) || contains pat x = false) in H.
  apply orb_false_elim in H as [P H].
  change (remove_from pat 0 (String c x))
    with (if String.prefix pat (String c x)
          then remove_from pat (String.length pat - 1) x
          else String c (remove_from pat 0 x)).
  rewrite P. now rewrite (IH H).
Qed.

Lemma remove_prefixed (p0 : ascii) (pat' x : string) :
  remove_all (String p0 pat') (String p0 pat' ++ x)
  = remove_all (String p0 pat') x.
Proof.
  unfold remove_all.
  change (remove_from (String p0 pat') 0 (String p0 pat' ++ x))
    with (if String.prefix (String p0 pat') (String p0 pat' ++ x)
          then remove_from (String p0 pat')
                 (String.length (String p0 pat') - 1) (pat' ++ x)
          else String p0 (remove_from (String p0 pat') 0 (pat' ++ x))).
  rewrite StrFacts.prefix_app.
  replace (String.length (String p0 pat') - 1) with (String.length pat')
    by (simpl; lia).
  apply remove_skip.
Qed.

Lemma contains_prefixed (pat x : string) : contains pat (pat ++ x) = true.
Proof.
  assert (U : forall s, contains pat s
                        = String.prefix pat s
                          || match s with
                             | EmptyString => false
                             | String _ s' => contains pat s'
                             end) by (intros s; now destruct s).
  rewrite U. now rewrite StrFacts.prefix_app.
Qed.

Lemma filter_first {A : Type} (f : A -> bool) (pre post : list A) (c : A) :
  forallb (fun x => negb (f x)) pre = true -> f c = true ->
  exists rest, filter f (pre ++ c :: post) = c :: rest.
Proof.
  intros Hpre Hc. induction pre as [| a pre IH]; simpl in *.
  - rewrite Hc. eauto.
  - apply andb_prop in Hpre as [Ha Hpre].
    apply negb_true_iff in Ha. rewrite Ha. now apply IH.
Qed.

(** X8: the language of a code-bearing element is read off the first of its
    classes that contains "language-", with every "language-" removed from
    that class; later classes are not looked at.  For a first such class of the
    form "language-X", with no further "language-" inside X, the result is
    X. *)
Theorem detect_language_reads_first_marked_class
  (e : node) (pre post : list string) (c : string) :
  a_class (node_attrs e) = Some (pre ++ c :: post) ->
  forallb (fun x => negb (contains "language-" x)) pre = true ->
  contains "language-" c = true ->
  detect_language e = Some (remove_all "language-" c)
  /\ (forall x, c = ("language-" ++ x)%string ->
                contains "language-" x = false ->
                detect_language e = Some x).
Proof.
  intros Hc Hpre Hm.
  assert (D : detect_language e = Some (remove_all "language-" c)).
  { unfold detect_language. rewrite Hc.
    destruct (filter_first (contains "language-") pre post c Hpre Hm)
      as [rest ->]. reflexivity. }
  split; [ exact D | ].
  intros x -> Hx. rewrite D. f_equal.
  rewrite (remove_prefixed "l" "anguage-" x). now apply remove_clean.
Qed.

(** An instance: [class="hljs language-python python"]. *)
Lemma detect_language_reads_first_marked_class_witness :
  detect_language
    (Tag "pre" (mkAttrs (Some ["hljs"; "language-python"; "python"]) None) [])
  = Some "python".
Proof.
  destruct (detect_language_reads_first_marked_class
              (Tag "pre"
                 (mkAttrs (Some ["hljs"; "language-python"; "python"]) None)
                 [])
              ["hljs"] ["python"] "language-python"
              eq_refl eq_refl eq_refl) as [_ H].
  apply (H "python"); reflexivity.
Defined.

End LanguageFacts.

(** ** Section Locator: the fall-back heuristics and what is returned *)

Module FallbackFacts.
Import Locator LocatorTerms LocatorFacts FallbackTerms.

Lemma first_some_some {A B : Type} (f : A -> option B) (l : list A) (y : B) :
  first_some f l = Some y -> exists x, In x l /\ f x = Some y.
Proof.
  induction l as [| a l IH]; simpl; [ discriminate | ].
  destruct (f a) as [z |] eqn:E.
  - intros [= <-]. exists a. split; [ now left | exact E ].
  - intros H. destruct (IH H) as (x & Hx & Hf). exists x.
    split; [ now right | exact Hf ].
Qed.

(** The Locator as the chain of its three scans. *)
Lemma find_topic_section_chain (soup : element) :
  find_topic_section soup
  = match first_some (try_header 3) (headers_in_scan_order soup) with
    | Some y => Some y
    | None =>
        match first_some (try_list 5) (find_all_el ["ul"] soup) with
        | Some y => Some y
        | None => first_some (try_container soup) known_classes
        end
    end.
Proof.
  unfold find_topic_section, patterns. cbn [first_some].
  rewrite header_pattern_scan. cbn [try_pattern].
  destruct (first_some (try_header 3) (headers_in_scan_order soup));
    [ reflexivity | ].
  destruct (first_some (try_list 5) (find_all_el ["ul"] soup));
    [ reflexivity | ].
  unfold known_classes. cbn [first_some].
  destruct (try_container soup "post-content"); [ reflexivity | ].
  destruct (try_container soup "entry-content"); [ reflexivity | ].
  now destruct (try_container soup "article-content").
Qed.

(** X9: when no level-2/3 heading qualifies and some [ul] holds at least
    five links, the Locator returns the parent of the first such [ul] in
    document order. *)
Theorem dense_list_is_the_second_choice (soup : element) :
  header_led soup = false -> dense_list soup = true ->
  exists l1 up l2,
    find_all_el ["ul"] soup = l1 ++ up :: l2
    /\ (forall z, In z l1 -> link_count (el_node (fst z)) < 5)
    /\ 5 <= link_count (el_node (fst up))
    /\ find_topic_section soup = Some (snd up).
Proof.
  intros Hh Hd. unfold dense_list in Hd.
  destruct (existsb_first _ _ Hd) as (l1 & up & l2 & E & H1 & Hu).
  exists l1, up, l2. split; [ exact E | ].
  split; [ | split ].
  - intros z Hz. apply Nat.leb_gt. now apply H1.
  - now apply Nat.leb_le.
  - rewrite find_topic_section_chain, (header_scan_none soup Hh), E.
    rewrite (first_some_hit (try_list 5) l1 l2 up (snd up)); auto.
    + intros z Hz. unfold try_list. now rewrite (H1 z Hz).
    + unfold try_list. now rewrite Hu.
Qed.

(** An instance: two links under the heading, five in a later list. *)
Lemma dense_list_is_the_second_choice_witness :
  exists l1 up l2,
    find_all_el ["ul"] five_links_page = l1 ++ up :: l2
    /\ (forall z, In z l1 -> link_count (el_node (fst z)) < 5)
    /\ 5 <= link_count (el_node (fst up))
    /\ find_topic_section five_links_page = Some (snd up).
Proof.
  apply dense_list_is_the_second_choice; reflexivity.
Defined.

Lemma first_some_none_all {A B : Type} (f : A -> option B) (l : list A) :
  first_some f l = None -> forall x, In x l -> f x = None.
Proof.
  induction l as [| a l IH]; simpl; intros H x Hx; [ destruct Hx | ].
  destruct (f a) eqn:E; [ discriminate | ].
  destruct Hx as [<- | Hx]; [ exact E | now apply IH ].
Qed.

Lemma try_container_some (soup c : element) (k : string) :
  try_container soup k = Some c <->
  find_div_class_el k soup = Some c /\ find_all ["a"] (el_node c) <> [].
Proof.
  unfold try_container.
  destruct (find_div_class_el k soup) as [d |].
  - destruct (find_all ["a"] (el_node d)) eqn:L; split.
    + discriminate.
    + intros [[= <-] H]. now elim H.
    + intros [= <-]. split; [ reflexivity | ]. rewrite L. discriminate.
    + now intros [[= <-] _].
  - split; [ discriminate | now intros [H _] ].
Qed.

(** X10: when neither a heading nor a dense list qualifies, the Locator
    returns a [div] only if it is the first [div] of the document that
    carries one of the known classes and it holds a link; it then returns
    that [div] itself, not its parent.  Such a first [div] with a link is
    also enough for a result. *)
Theorem known_container_is_the_last_choice (soup : element) :
  header_led soup = false -> dense_list soup = false ->
  (forall c, find_topic_section soup = Some c ->
     exists k, In k known_classes
               /\ find_div_class_el k soup = Some c
               /\ find_all ["a"] (el_node c) <> [])
  /\ (forall k c, In k known_classes ->
        find_div_class_el k soup = Some c ->
        find_all ["a"] (el_node c) <> [] ->
        find_topic_section soup <> None).
Proof.
  intros Hh Hd.
  rewrite find_topic_section_chain, (header_scan_none soup Hh),
    (list_scan_none soup Hd).
  split.
  - intros c H. apply first_some_some in H as (k & Hk & H).
    exists k. split; [ exact Hk | ]. now apply try_container_some.
  - intros k c Hk Hf Hl N.
    pose proof (first_some_none_all _ _ N k Hk) as E.
    assert (S : try_container soup k = Some c)
      by now apply try_container_some.
    congruence.
Qed.

(** An instance: the first [div] of one class has no link, that of a later
    class has one. *)
Lemma known_container_is_the_last_choice_witness :
  option_map el_node (find_topic_section containers_page)
  = Some (Tag "div" (mkAttrs (Some ["wide"; "article-content"]) None)
            [link "/y" "Y"])
  /\ exists k, In k known_classes
               /\ option_map el_node (find_div_class_el k containers_page)
                  = option_map el_node (find_topic_section containers_page).
Proof.
  split; [ reflexivity | ].
  destruct (known_container_is_the_last_choice containers_page
              eq_refl eq_refl) as [H _].
  destruct (find_topic_section containers_page) as [c |] eqn:E;
    [ | discriminate ].
  destruct (H c eq_refl) as (k & Hk & Hf & _).
  exists k. split; [ exact Hk | ]. now rewrite Hf.
Defined.

(** *** What is returned lies in the document *)

Lemma children_below_parent
  (rec : node -> list node -> list (element * element))
  (par : element) (after : list node) (l : list node) :
  incl l (node_contents (el_node par)) ->
  Forall (fun k => forall a p,
            In p (rec k a) ->
            child_ok p
            /\ (snd p = mkElement k a \/ In (snd p) (map fst (rec k a)))) l ->
  forall p,
    In p (children_below rec par after l) ->
    child_ok p
    /\ (snd p = par
        \/ In (snd p) (map fst (children_below rec par after l))).
Proof.
  intros Hincl Hall. induction Hall as [| k l Hk _ IH]; intros p Hp;
    [ destruct Hp | ].
  simpl in Hp. destruct Hp as [<- | Hp].
  - split; [ | now left ]. apply Hincl. now left.
  - apply in_app_or in Hp as [Hp | Hp].
    + destruct (Hk _ _ Hp) as [C [E | I]].
      * split; [ exact C | ]. right. simpl. left. now rewrite E.
      * split; [ exact C | ]. right. simpl. right.
        rewrite map_app. apply in_or_app. now left.
    + assert (Hincl' : incl l (node_contents (el_node par))).
      { intros x Hx. apply Hincl. now right. }
      destruct (IH Hincl' p Hp) as [C [E | I]].
      * split; [ exact C | now left ].
      * split; [ exact C | ]. right. simpl. right.
        rewrite map_app. apply in_or_app. now right.
Qed.

Lemma below_parent (n : node) : forall after p,
  In p (below n after) ->
  child_ok p
  /\ (snd p = mkElement n after \/ In (snd p) (map fst (below n after))).
Proof.
  induction n as [s | nm a ks IH] using node_induction; intros after p Hp;
    [ destruct Hp | ].
  simpl in Hp |- *.
  apply (children_below_parent below (mkElement (Tag nm a ks) after) after ks);
    [ apply incl_refl | exact IH | exact Hp ].
Qed.

Lemma contents_in_descendants (n k : node) :
  In k (node_contents n) -> In k (descendants n).
Proof.
  destruct n as [s | nm a ks]; simpl; [ tauto | ].
  intros H. apply in_flat_map. exists k. split; [ exact H | now left ].
Qed.

Lemma found_pair_placed (names : list string) (soup : element)
  (p : element * element) :
  In p (find_all_el names soup) ->
  in_document soup (snd p)
  /\ In (el_node (fst p)) (descendants (el_node (snd p)))
  /\ In (fst p) (map fst (below (el_node soup) (el_after soup))).
Proof.
  unfold find_all_el. intros H. apply filter_In in H as [H _].
  destruct (below_parent _ _ _ H) as [C D]. split; [ | split ].
  - destruct D as [-> | D]; [ left; now destruct soup | now right ].
  - now apply contents_in_descendants.
  - now apply in_map.
Qed.

(** X11: whatever the Locator returns is the document itself or a tag
    below it, and it holds a level-2/3 heading or a hyperlink: the parent of a
    qualifying heading holds that heading, the parent of a dense list holds
    its links, and a known container holds a link of its own. *)
Theorem located_section_is_sound (soup c : element) :
  find_topic_section soup = Some c ->
  in_document soup c
  /\ (find_all ["h2"; "h3"] (el_node c) <> []
      \/ find_all ["a"] (el_node c) <> []).
Proof.
  rewrite find_topic_section_chain.
  destruct (first_some (try_header 3) (headers_in_scan_order soup))
    as [y |] eqn:Eh.
  - intros [= <-]. apply first_some_some in Eh as (hp & Hin & Ht).
    rewrite try_header_qualifies in Ht.
    destruct (qualifies hp); [ | discriminate ]. injection Ht as <-.
    assert (Hw : In hp (find_all_el ["h2"; "h3"] soup)).
    { unfold headers_in_scan_order in Hin.
      apply in_app_or in Hin as [Hin | Hin];
        (eapply find_all_el_widen; [ | exact Hin ]); reflexivity. }
    destruct (found_pair_placed _ _ _ Hw) as (D & C & _).
    split; [ exact D | left ].
    apply find_all_el_node in Hw as [_ Hn].
    intros E.
    assert (I : In (el_node (fst hp)) (find_all ["h2"; "h3"] (el_node (snd hp))))
      by (apply DomFacts.find_all_in; now split).
    rewrite E in I. destruct I.
  - destruct (first_some (try_list 5) (find_all_el ["ul"] soup))
      as [y |] eqn:El.
    + intros [= <-]. apply first_some_some in El as (up & Hin & Ht).
      unfold try_list in Ht.
      destruct (5 <=? link_count (el_node (fst up)))%nat eqn:L;
        [ | discriminate ].
      injection Ht as <-.
      destruct (found_pair_placed _ _ _ Hin) as (D & C & _).
      split; [ exact D | right ].
      apply Nat.leb_le in L. unfold link_count in L.
      destruct (find_all ["a"] (el_node (fst up))) as [| x xs] eqn:A;
        [ simpl in L; lia | ].
      assert (Hx : In x (find_all ["a"] (el_node (fst up))))
        by (rewrite A; now left).
      apply DomFacts.find_all_in in Hx as [Hx Hn].
      intros E.
      assert (I : In x (find_all ["a"] (el_node (snd up)))).
      { apply DomFacts.find_all_in. split; [ | exact Hn ].
        now apply DomFacts.descendants_trans with (el_node (fst up)). }
      rewrite E in I. destruct I.
    + intros H. apply first_some_some in H as (k & _ & H).
      apply try_container_some in H as [Hf Hl].
      split; [ | now right ].
      unfold find_div_class_el in Hf. apply hd_error_in in Hf.
      apply filter_In in Hf as [Hf _].
      apply in_map_iff in Hf as (p & <- & Hp).
      right. now destruct (found_pair_placed _ _ _ Hp) as (_ & _ & I).
Qed.

(** An instance: the parent of the [h2] of the sample page. *)
Lemma located_section_is_sound_witness :
  in_document h3_before_h2_page (mkElement h2_block [])
  /\ (find_all ["h2"; "h3"] h2_block <> [] \/ find_all ["a"] h2_block <> []).
Proof.
  apply (located_section_is_sound h3_before_h2_page (mkElement h2_block [])).
  reflexivity.
Defined.

End FallbackFacts.

(** ** The orchestrator: what is skipped, what is added, when it gives up *)

Module OutlineFacts.
Import ScraperTerms OutlineTerms.

Section WithCollaborators.

Variable parse : string -> node.
Variable World : Type.
Variable fetch_page : string -> World -> option string * World.
Variable urljoin : string -> string -> string.

Local Abbreviation items := (scrape_items parse World fetch_page urljoin).
Local Abbreviation sections :=
  (scrape_sections parse World fetch_page urljoin).
Local Abbreviation scrape :=
  (scrape_from_url parse World fetch_page urljoin).

Lemma scrape_items_unusable (li : node) (rest : list node)
  (w : World) (md : list string) :
  usable li = false -> items (li :: rest) w md = items rest w md.
Proof.
  unfold usable. intros H. simpl.
  destruct (find ["a"] li) as [link |]; [ | reflexivity ].
  destruct (a_href (node_attrs link)) as [href |]; [ | reflexivity ].
  now rewrite H.
Qed.

Lemma usable_link (li : node) :
  usable li = true ->
  exists link href,
    find ["a"] li = Some link /\ a_href (node_attrs link) = Some href
    /\ PyStr.truthy href = true.
Proof.
  unfold usable. destruct (find ["a"] li) as [link |]; [ | discriminate ].
  destruct (a_href (node_attrs link)) as [href |] eqn:Hh; [ | discriminate ].
  intros H. exists link, href. repeat split; auto.
Qed.

(** X12: list items without a link, or whose first link has no target or
    an empty one, are passed over: they add no fragment and cause no fetch, so
    the item loop gives the same fragments and leaves the same world as on the
    usable items alone. *)
Theorem items_without_link_are_skipped (lis : list node) :
  forall w md,
    scrape_items parse World fetch_page urljoin lis w md
    = scrape_items parse World fetch_page urljoin (filter usable lis) w md.
Proof.
  induction lis as [| li rest IH]; intros w md; [ reflexivity | ].
  simpl filter. destruct (usable li) eqn:U.
  - destruct (usable_link li U) as (link & href & Hl & Hh & Ht).
    rewrite !(ScraperFacts.scrape_items_link parse World fetch_page urljoin
                li link href _ w md Hl Hh Ht).
    apply IH.
  - rewrite (scrape_items_unusable li rest w md U). apply IH.
Qed.

Lemma short_title (t : string) :
  negb (PyStr.truthy t) || (String.length t <? 2)%nat
  = negb (2 <=? String.length t)%nat.
Proof.
  destruct t as [| c t]; [ reflexivity | ]. simpl negb at 1.
  rewrite orb_false_l. rewrite Nat.ltb_antisym. reflexivity.
Qed.

(** X13: a heading of the topic section whose stripped title has fewer than
    two characters is passed over together with its list: no section line, no
    article and no fetch come from it, so the section loop behaves as on the
    headings with longer titles alone. *)
Theorem short_titled_sections_are_skipped (headers : list element) :
  forall w md,
    scrape_sections parse World fetch_page urljoin headers w md
    = scrape_sections parse World fetch_page urljoin
        (filter title_kept headers) w md.
Proof.
  induction headers as [| header rest IH]; intros w md; [ reflexivity | ].
  simpl filter. unfold title_kept at 1.
  rewrite (ScraperFacts.scrape_sections_cons parse World fetch_page urljoin
             header rest w md).
  rewrite short_title.
  destruct (2 <=? String.length (get_text_strip (el_node header)))%nat eqn:K.
  - rewrite (ScraperFacts.scrape_sections_cons parse World fetch_page urljoin
               header (filter title_kept rest)).
    rewrite short_title, K. cbn [negb].
    destruct (find_next ["ul"] header) as [ul |]; apply IH.
  - apply IH.
Qed.

(** X14: when the fetch of an article succeeds with non-empty markup, its
    item always contributes three fragments: the sub-heading, the content of
    the extracted article (the empty string when the page has no main
    container), and the separator. *)
Theorem fetched_article_adds_three_fragments
  (li link : node) (href h : string) (rest : list node) (w w1 : World)
  (md : list string) :
  find ["a"] li = Some link -> a_href (node_attrs link) = Some href ->
  PyStr.truthy href = true ->
  fetch_page (urljoin base_url href) w = (Some h, w1) ->
  h <> EmptyString ->
  exists art,
    extract_article_content parse h = Some art
    /\ scrape_items parse World fetch_page urljoin (li :: rest) w md
       = (md ++ [sub_heading (get_text_strip link); content art; separator]
             ++ fst (scrape_items parse World fetch_page urljoin rest w1 []),
          snd (scrape_items parse World fetch_page urljoin rest w1 [])).
Proof.
  intros Hl Hh Ht Hf Hne.
  assert (T : PyStr.truthy h = true) by now apply NamingFacts.truthy_nonempty.
  assert (E : exists art, extract_article_content parse h = Some art).
  { unfold extract_article_content. rewrite T. cbn [negb]. eauto. }
  destruct E as [art E]. exists art. split; [ exact E | ].
  rewrite (ScraperFacts.scrape_items_link parse World fetch_page urljoin
             li link href rest w md Hl Hh Ht).
  rewrite Hf. cbn [fst snd]. unfold article_fragments. rewrite T, E.
  rewrite ScraperFacts.scrape_items_appends.
  f_equal. reassoc.
Qed.

(** X15: the orchestrator gives up on a topic exactly when the fetch of the
    topic page fails, its markup is empty, or the Locator finds no section;
    it then has made that one fetch and no other. *)
Theorem scrape_gives_up_exactly_when (url : string) (w : World) :
  (fst (scrape_from_url parse World fetch_page urljoin url w) = None <->
   match fst (fetch_page url w) with
   | None => True
   | Some html =>
       html = EmptyString
       \/ Locator.find_topic_section (mkElement (parse html) []) = None
   end)
  /\ (fst (scrape_from_url parse World fetch_page urljoin url w) = None ->
      snd (scrape_from_url parse World fetch_page urljoin url w)
      = snd (fetch_page url w)).
Proof.
  unfold scrape_from_url.
  destruct (fetch_page url w) as [[html |] w1]; cbn [fst snd];
    [ | now repeat split ].
  destruct html as [| ch html]; cbn [PyStr.truthy PyStr.is_empty negb].
  - repeat split; auto.
  - destruct (Locator.find_topic_section
                (mkElement (parse (String ch html)) [])) as [sec |].
    + destruct (scrape_sections _ _ _ _ _ _ _) as [md w2]. cbn [fst snd].
      split; [ split | ]; try discriminate.
      intros [H | H]; discriminate.
    + cbn [fst snd]. repeat split; auto.
Qed.

(** A document, when there is one, starts with the title line. *)
Lemma scrape_document_nonempty (url : string) (w : World) :
  fst (scrape url w) <> Some [].
Proof.
  unfold scrape_from_url.
  destruct (fetch_page url w) as [[html |] w1]; [ | discriminate ].
  destruct (negb (PyStr.truthy html)); [ discriminate | ].
  destruct (Locator.find_topic_section _) as [sec |]; [ | discriminate ].
  rewrite ScraperFacts.scrape_sections_appends. discriminate.
Qed.

End WithCollaborators.

(** An instance: the article behind the first item is served, the one
    behind the second is not. *)
Lemma fetched_article_adds_three_fragments_witness :
  scrape_items two_pages unit y_is_down sample_urljoin [item_x; item_y] tt []
  = ([sub_heading "X"; (Formatter.nl ++ "Body" ++ Formatter.nl)%string;
      separator; sub_heading "Y"; separator], tt).
Proof.
  destruct (fetched_article_adds_three_fragments two_pages unit y_is_down
              sample_urljoin item_x (LocatorTerms.link "/x" "X") "/x"
              "<article>" [item_y] tt tt [] eq_refl eq_refl eq_refl eq_refl)
    as (art & E & H); [ discriminate | ].
  rewrite H. vm_compute in E. injection E as <-. reflexivity.
Defined.

End OutlineFacts.

(** ** File names, saving and the main loop *)

Module SavingFacts.
Import PyStr NamingTerms NamingFacts SavingTerms.

Local Abbreviation slash := ("/"%char).

Lemma split_pieces_no_slash (s : string) :
  Forall (fun c => no_slash c = true) (split slash s).
Proof.
  induction s as [| x s IH]; simpl; [ repeat constructor | ].
  destruct (Ascii.eqb x slash) eqn:E.
  - constructor; [ reflexivity | exact IH ].
  - destruct (split slash s) as [| h t]; [ repeat constructor; simpl;
      now rewrite E | ].
    inversion IH as [| ? ? Hh Ht]; subst.
    constructor; [ simpl; now rewrite E, Hh | exact Ht ].
Qed.

Lemma index_from_end_in (k : nat) (l : list string) (x : string) :
  index_from_end k l = Some x -> In x l.
Proof.
  unfold index_from_end. intros H. apply nth_error_In in H.
  now apply in_rev.
Qed.

Lemma filename_pieces (url f : string) :
  output_filename url = Some f ->
  exists seg, f = (seg ++ ".md")%string /\ no_slash seg = true.
Proof.
  unfold output_filename.
  destruct (if endswith slash url
            then index_from_end 2 (split slash url)
            else index_from_end 1 (split slash url)) as [seg |] eqn:E;
    [ | discriminate ].
  intros [= <-]. exists seg. split; [ reflexivity | ].
  assert (I : In seg (split slash url)).
  { destruct (endswith slash url); now apply index_from_end_in in E. }
  pose proof (split_pieces_no_slash url) as A.
  rewrite Forall_forall in A. now apply A.
Qed.

(** X16: for every URL a file name is produced (neither index of [main] can
    be out of range), it ends in ".md", and the part before ".md" holds no
    slash. *)
Theorem output_filename_is_a_plain_name (url : string) :
  exists seg,
    output_filename url = Some (seg ++ ".md")%string
    /\ no_slash seg = true.
Proof.
  destruct (output_filename_total url) as [f Hf].
  destruct (filename_pieces url f Hf) as (seg & -> & Hs).
  exists seg. now split.
Qed.

Lemma path_join_plain (seg : string) :
  no_slash seg = true ->
  path_join "scraped_content" (seg ++ ".md")
  = ("scraped_content/" ++ seg ++ ".md")%string.
Proof.
  intros H. unfold path_join.
  assert (P : String.prefix "/" (seg ++ ".md") = false).
  { destruct seg as [| c seg]; [ reflexivity | ].
    simpl in H. apply andb_prop in H as [H _].
    apply negb_true_iff in H.
    change (String.prefix "/" (String c seg ++ ".md"))
      with (if ascii_dec "/" c then String.prefix "" (seg ++ ".md")
            else false).
    destruct (ascii_dec "/" c) as [<- | _]; [ discriminate | reflexivity ]. }
  rewrite P. reflexivity.
Qed.

Section WithCollaborators.

Variable parse : string -> node.
Variable World : Type.
Variable fetch_page : string -> World -> option string * World.
Variable urljoin : string -> string -> string.

Local Abbreviation scrape :=
  (scrape_from_url parse World fetch_page urljoin).
Local Abbreviation loop := (main_loop parse World fetch_page urljoin).

Lemma main_loop_cons (url : string) (rest : list string)
  (w : World) (fs : files) :
  loop (url :: rest) w fs
  = loop rest (snd (scrape url w))
      (saved parse World fetch_page urljoin url w fs).
Proof.
  unfold saved. cbn [main_loop].
  destruct (output_filename_total url) as [f Hf].
  destruct (filename_pieces url f Hf) as (seg & -> & Hs). rewrite Hf.
  pose proof (OutlineFacts.scrape_document_nonempty parse World fetch_page
                urljoin url w) as N.
  destruct (scrape url w) as [[[| c cs] |] w1]; cbn [fst snd] in *.
  - now elim N.
  - unfold save_content. now rewrite (path_join_plain seg Hs).
  - reflexivity.
Qed.

Lemma main_loop_app (a b : list string) : forall w fs,
  loop (a ++ b) w fs = loop b (fst (loop a w fs)) (snd (loop a w fs)).
Proof.
  induction a as [| url a IH]; intros w fs; [ reflexivity | ].
  rewrite <- app_comm_cons, !main_loop_cons. apply IH.
Qed.

Lemma saved_inside (url : string) (w : World) (fs : files) :
  Forall (inside_directory fs) (saved parse World fetch_page urljoin url w fs).
Proof.
  assert (Old : Forall (inside_directory fs) fs).
  { apply Forall_forall. intros x Hx. now left. }
  unfold saved. destruct (fst (scrape url w)) as [md |]; [ | exact Old ].
  destruct (output_filename url) as [f |] eqn:Hf; [ | exact Old ].
  destruct (filename_pieces url f Hf) as (seg & -> & Hs).
  constructor; [ | exact Old ]. right. exists seg. now split.
Qed.

Lemma inside_trans (fs fs' : files) (entry : string * string) :
  Forall (inside_directory fs) fs' -> inside_directory fs' entry ->
  inside_directory fs entry.
Proof.
  intros H [I | E]; [ | now right ].
  rewrite Forall_forall in H. now apply H.
Qed.

(** X18: whatever the URLs and whatever the network serves, every file the
    main loop adds lies directly in "scraped_content/": its path is that
    directory, a name without any slash, and ".md". *)
Theorem files_stay_inside_the_directory (us : list string) :
  forall w fs,
    Forall (inside_directory fs)
      (snd (main_loop parse World fetch_page urljoin us w fs)).
Proof.
  induction us as [| url us IH]; intros w fs.
  - apply Forall_forall. intros x Hx. now left.
  - rewrite main_loop_cons.
    eapply Forall_impl;
      [ | exact (IH (snd (scrape url w))
                    (saved parse World fetch_page urljoin url w fs)) ].
    intros entry. apply inside_trans, saved_inside.
Qed.

Lemma sapp_inj (p a b : string) : (p ++ a = p ++ b)%string -> a = b.
Proof.
  induction p as [| c p IH]; simpl; [ auto | ].
  intros [= H]. now apply IH.
Qed.

Lemma read_after_others (f : string) (us : list string) : forall w fs,
  Forall (fun u => output_filename u <> Some f) us ->
  read_file ("scraped_content/" ++ f) (snd (loop us w fs))
  = read_file ("scraped_content/" ++ f) fs.
Proof.
  induction us as [| url us IH]; intros w fs H; [ reflexivity | ].
  inversion H as [| ? ? Hu Hus]; subst.
  rewrite main_loop_cons, IH by assumption.
  unfold saved. destruct (fst (scrape url w)) as [md |]; [ | reflexivity ].
  destruct (output_filename url) as [f' |] eqn:Hf; [ | reflexivity ].
  unfold write_file. cbn [read_file].
  destruct (String.eqb_spec ("scraped_content/" ++ f')
              ("scraped_content/" ++ f)) as [E | _]; [ | reflexivity ].
  apply sapp_inj in E. subst f'. now elim Hu.
Qed.

(** X19: after the main loop, the file of a URL whose scrape yielded a
    document holds that document, its fragments joined by newlines, provided
    no later URL has the same file name (a later one with the same name would
    replace it). *)
Theorem saved_document_is_read_back
  (before after : list string) (url f : string) (md : list string)
  (w : World) (fs : files) :
  fst (scrape_from_url parse World fetch_page urljoin url
         (fst (main_loop parse World fetch_page urljoin before w fs)))
  = Some md ->
  output_filename url = Some f ->
  Forall (fun u => output_filename u <> Some f) after ->
  read_file ("scraped_content/" ++ f)
    (snd (main_loop parse World fetch_page urljoin
            (before ++ url :: after) w fs))
  = Some (join Formatter.nl md).
Proof.
  intros Hs Hf Ha.
  rewrite main_loop_app, main_loop_cons.
  rewrite read_after_others by assumption.
  unfold saved. rewrite Hs, Hf. unfold write_file. cbn [read_file].
  now rewrite String.eqb_refl.
Qed.

End WithCollaborators.

(** An instance: the sample topic page, saved under the name of its URL. *)
Lemma saved_document_is_read_back_witness :
  read_file "scraped_content/greedy-algorithms.md"
    (snd (main_loop ScraperTerms.sample_parse unit ScraperTerms.always_up
            ScraperTerms.sample_urljoin
            ([] ++ "https://www.geeksforgeeks.org/greedy-algorithms/"
                :: ["https://www.geeksforgeeks.org/dynamic-programming/"])
            tt []))
  = Some (join Formatter.nl ScraperTerms.sample_document).
Proof.
  apply (saved_document_is_read_back ScraperTerms.sample_parse unit
           ScraperTerms.always_up ScraperTerms.sample_urljoin
           [] ["https://www.geeksforgeeks.org/dynamic-programming/"]
           "https://www.geeksforgeeks.org/greedy-algorithms/"
           "greedy-algorithms.md" ScraperTerms.sample_document tt []).
  - reflexivity.
  - reflexivity.
  - repeat constructor. vm_compute. discriminate.
Defined.

End SavingFacts.

(** ** The scraper with exceptions: what is caught and what is not *)

Module RaisingFacts.
Import ScraperTerms RaisingTerms.

Section WithCollaborators.

Variable parse : string -> node.
Variable World : Type.
Variable session_get : string -> World -> attempt * World.

(** [fetch_page] turns a [RequestException] and a non-success status into
    the absent result. *)
Lemma fetch_page_recovers (url : string) (w w1 : World) :
  (session_get url w = (RequestFailed, w1)
   \/ exists text, session_get url w = (Responded false text, w1)) ->
  Raising.fetch_page World session_get url w = (Returned None, w1).
Proof.
  unfold Raising.fetch_page. intros [-> | [text ->]]; reflexivity.
Qed.

(** Any other exception leaves [fetch_page]. *)
Lemma fetch_page_raises (url : string) (w w1 : World) :
  session_get url w = (OtherError, w1) ->
  Raising.fetch_page World session_get url w = (Raised, w1).
Proof. unfold Raising.fetch_page. now intros ->. Qed.

Section Joining.

Variable urljoin : string -> string -> outcome string.

Local Abbreviation items :=
  (Raising.scrape_items parse World session_get urljoin).
Local Abbreviation sections :=
  (Raising.scrape_sections parse World session_get urljoin).

(** A fetch that ends in a [RequestException] or in a non-success status
    leaves the sub-heading and the separator, and the loop goes on. *)
Lemma request_failure_is_skipped
  (li link : node) (href u : string) (rest : list node) (w w1 : World)
  (md : list string) :
  find ["a"] li = Some link -> a_href (node_attrs link) = Some href ->
  PyStr.truthy href = true -> urljoin base_url href = Returned u ->
  (session_get u w = (RequestFailed, w1)
   \/ exists text, session_get u w = (Responded false text, w1)) ->
  items (li :: rest) w md
  = items rest w1 (md ++ [sub_heading (get_text_strip link); separator]).
Proof.
  intros Hl Hh Ht Hu Hs. cbn [Raising.scrape_items].
  rewrite Hl, Hh, Ht, Hu, (fetch_page_recovers u w w1 Hs).
  unfold sub_heading, separator. now rewrite <- app_assoc.
Qed.

(** C7: the fetch of an article can fail in a way the orchestrator does
    not survive.  When the request for the article ends in an exception that
    is no [requests.RequestException], [fetch_page] does not catch it: the
    item loop is left at once, whatever items remain, without the separator
    and without a result. *)
Theorem unexpected_error_leaves_the_item_loop
  (li link : node) (href u : string) (rest : list node) (w w1 : World)
  (md : list string) :
  find ["a"] li = Some link -> a_href (node_attrs link) = Some href ->
  PyStr.truthy href = true -> urljoin base_url href = Returned u ->
  session_get u w = (OtherError, w1) ->
  Raising.fetch_page World session_get u w = (Raised, w1)
  /\ Raising.scrape_items parse World session_get urljoin (li :: rest) w md
     = (Raised, w1).
Proof.
  intros Hl Hh Ht Hu Hs.
  pose proof (fetch_page_raises u w w1 Hs) as F.
  split; [ exact F | ].
  cbn [Raising.scrape_items]. now rewrite Hl, Hh, Ht, Hu, F.
Qed.

(** An exception in the item loop leaves the section loop. *)
Lemma raised_items_leave_sections
  (header : element) (later : list element) (ul : node)
  (w w' : World) (md : list string) :
  (negb (PyStr.truthy (get_text_strip (el_node header)))
   || (String.length (get_text_strip (el_node header)) <? 2)%nat) = false ->
  find_next ["ul"] header = Some ul ->
  items (find_all ["li"] ul) w
    (md ++ [section_heading (get_text_strip (el_node header))])
  = (Raised, w') ->
  sections (header :: later) w md = (Raised, w').
Proof.
  intros Ht Hu Hi. cbn [Raising.scrape_sections]. rewrite Ht, Hu.
  unfold section_heading in Hi. now rewrite Hi.
Qed.

End Joining.

(** *** The two embeddings agree when nothing else is raised *)

Variable join : string -> string -> string.

Hypothesis only_request_exceptions :
  forall url w, fst (session_get url w) <> OtherError.

Lemma fetch_page_agrees (url : string) (w : World) :
  Raising.fetch_page World session_get url w
  = (Returned (fst (Raising.quiet_fetch World session_get url w)),
     snd (Raising.quiet_fetch World session_get url w)).
Proof.
  unfold Raising.fetch_page, Raising.quiet_fetch.
  pose proof (only_request_exceptions url w) as N.
  destruct (session_get url w) as [[[|] text | |] w1]; try reflexivity.
  now elim N.
Qed.

Lemma scrape_items_agrees (lis : list node) : forall w md,
  Raising.scrape_items parse World session_get
    (fun base href => Returned (join base href)) lis w md
  = (Returned
       (fst (scrape_items parse World
               (Raising.quiet_fetch World session_get) join lis w md)),
     snd (scrape_items parse World
            (Raising.quiet_fetch World session_get) join lis w md)).
Proof.
  induction lis as [| li rest IH]; intros w md; [ reflexivity | ].
  cbn [Raising.scrape_items scrape_items].
  destruct (find ["a"] li) as [link |]; [ | apply IH ].
  destruct (a_href (node_attrs link)) as [href |]; [ | apply IH ].
  destruct (PyStr.truthy href); [ | apply IH ].
  rewrite fetch_page_agrees.
  destruct (Raising.quiet_fetch World session_get (join base_url href) w)
    as [page_html w1].
  cbn [fst snd]. apply IH.
Qed.

Lemma scrape_sections_agrees (headers : list element) : forall w md,
  Raising.scrape_sections parse World session_get
    (fun base href => Returned (join base href)) headers w md
  = (Returned
       (fst (scrape_sections parse World
               (Raising.quiet_fetch World session_get) join headers w md)),
     snd (scrape_sections parse World
            (Raising.quiet_fetch World session_get) join headers w md)).
Proof.
  induction headers as [| header rest IH]; intros w md; [ reflexivity | ].
  cbn [Raising.scrape_sections scrape_sections].
  destruct (negb (PyStr.truthy (get_text_strip (el_node header)))
            || (String.length (get_text_strip (el_node header)) <? 2)%nat);
    [ apply IH | ].
  destruct (find_next ["ul"] header) as [ul |]; [ | apply IH ].
  rewrite scrape_items_agrees.
  destruct (scrape_items parse World (Raising.quiet_fetch World session_get)
              join (find_all ["li"] ul) w _) as [md2 w2].
  cbn [fst snd]. apply IH.
Qed.

(** On a network that raises nothing but [requests.RequestException], and
    with a join that never fails, the orchestrator with exceptions returns
    what the orchestrator without them computes. *)
Lemma scrape_from_url_agrees (url : string) (w : World) :
  Raising.scrape_from_url parse World session_get
    (fun base href => Returned (join base href)) url w
  = (Returned
       (fst (scrape_from_url parse World
               (Raising.quiet_fetch World session_get) join url w)),
     snd (scrape_from_url parse World
            (Raising.quiet_fetch World session_get) join url w)).
Proof.
  unfold Raising.scrape_from_url, scrape_from_url.
  rewrite fetch_page_agrees.
  destruct (Raising.quiet_fetch World session_get url w) as [[html |] w1];
    cbn [fst snd]; [ | reflexivity ].
  destruct (negb (PyStr.truthy html)); [ reflexivity | ].
  destruct (Locator.find_topic_section _) as [sec |]; [ | reflexivity ].
  rewrite scrape_sections_agrees.
  now destruct (scrape_sections parse World
                  (Raising.quiet_fetch World session_get) join _ w1 _).
Qed.

End WithCollaborators.

(** An instance: the first article of the page has a host label of 64
    characters.  The request for it raises, and with it the item loop and the
    whole scrape of the topic: no document is returned, not even for the two
    articles that could be fetched. *)
Lemma unexpected_error_leaves_the_item_loop_witness :
  Raising.scrape_items long_host_parse unit long_host_session
    absolute_or_joined
    [LocatorTerms.item (LocatorTerms.link long_host_url "X");
     LocatorTerms.item (LocatorTerms.link "/y" "Y")] tt []
  = (Raised, tt)
  /\ Raising.scrape_from_url long_host_parse unit long_host_session
       absolute_or_joined "topic" tt
     = (Raised, tt).
Proof.
  split.
  - apply (unexpected_error_leaves_the_item_loop long_host_parse unit
             long_host_session absolute_or_joined
             (LocatorTerms.item (LocatorTerms.link long_host_url "X"))
             (LocatorTerms.link long_host_url "X") long_host_url
             long_host_url); reflexivity.
  - reflexivity.
Defined.

End RaisingFacts.
